(** * Bi-directional synchronisation between Partner and Raintree Salesforce

    A shallow embedding of [backend/src/services/sync.ts] (class
    [SyncService]) and of the summary computed by the route
    [POST /api/sync/detect-changes], together with the properties of the
    synchronisation engine.

    - Strings of the program are [string]; an optional or possibly
      [undefined] field is an [option].
    - [new Date(s).getTime()] is a number or [NaN]: an [option Z] whose
      [None] is [NaN].
    - [async] code that talks to the two Salesforce orgs is a computation in
      the monad [M]: it threads the state of the outside world, may throw an
      [Error] (its message) and records the gateway calls it makes. *)

From Stdlib Require Import ZArith String Ascii List.
From stdpp Require Import base option list gmap strings.

Local Open Scope string_scope.

(** ** Data model ([sync.ts], [types/salesforce.ts]) *)

Inductive SyncSource := partner | raintree | system.

Inductive SyncDirection :=
  | partner_to_raintree
  | raintree_to_partner
  | none
  | conflict.

#[global] Instance SyncSource_eq_dec : EqDecision SyncSource.
Proof. solve_decision. Defined.

#[global] Instance SyncDirection_eq_dec : EqDecision SyncDirection.
Proof. solve_decision. Defined.

(** [interface SyncMapping].  The two timestamps are declared [string]; the
    value the pass writes back is [LastModifiedDate || CreatedDate], which is
    [undefined] when the record carries neither, hence the [option]. *)
Record SyncMapping := {
  partnerId : string;
  raintreeId : string;
  partnerLastModified : option string;
  raintreeLastModified : option string;
  lastSyncSource : SyncSource;
  lastSyncTime : string
}.

(** [interface SyncResult]. *)
Record SyncResult := {
  recordId : string;
  recordName : string;
  syncDirection : SyncDirection;
  success : bool;
  error : option string;
  timestamp : string
}.

Record SalesforceCredentials := {
  email : string;
  password : string;
  securityToken : string
}.

(** [interface SalesforceOpportunity]; the Raintree record is the JSON body of
    the REST response ([any]), read through the same fields.  Amounts are
    opaque to the engine and are kept as integers. *)
Record SalesforceOpportunity := {
  opp_Id : string;
  opp_Name : option string;
  opp_StageName : option string;
  opp_Amount : option Z;
  opp_CloseDate : option string;
  opp_CreatedDate : option string;
  opp_LastModifiedDate : option string
}.

(** The object literal passed to [updateOpportunity]. *)
Record OpportunityData := {
  upd_Name : option string;
  upd_StageName : option string;
  upd_Amount : Z;
  upd_CloseDate : option string
}.

(** [interface SalesforceLead]. *)
Record SalesforceLead := {
  lead_Id : string;
  lead_FirstName : option string;
  lead_LastName : option string;
  lead_Company : option string;
  lead_Email : option string;
  lead_Status : option string;
  lead_CreatedDate : option string;
  lead_LastModifiedDate : option string
}.

(** The object literal passed to [updateLead]. *)
Record LeadData := {
  ld_FirstName : string;
  ld_LastName : string;
  ld_Company : string;
  ld_Email : string;
  ld_Status : string
}.

(** ** JavaScript operators used by the engine *)

(** [a || b] on optional strings: [undefined] and [''] are falsy. *)
Definition js_or (a b : option string) : option string :=
  match a with
  | Some EmptyString | None => b
  | Some _ => a
  end.

(** [a || 'literal']. *)
Definition js_or_default (a : option string) (d : string) : string :=
  match a with
  | Some EmptyString | None => d
  | Some s => s
  end.

(** [n || 0] on an optional number. *)
Definition js_or_zero (a : option Z) : Z := default 0%Z a.

(** [a > b] on numbers: false as soon as one side is [NaN]. *)
Definition js_gt (a b : option Z) : bool :=
  match a, b with
  | Some x, Some y => (y <? x)%Z
  | _, _ => false
  end.

(** ** Outcomes, gateway calls and the environment *)

Inductive Outcome (A : Type) :=
  | Returns (a : A)
  | Throws (message : string).
Arguments Returns {A} a.
Arguments Throws {A} message.

(** The gateway operations the engine invokes. *)
Inductive Call :=
  | CreateWithCredentials (c : SalesforceCredentials)
  | PartnerGetOpportunities
  | PartnerGetLeads
  | RaintreeGetOpportunity (id : string)
  | RaintreeGetLead (id : string)
  | RaintreeUpdateOpportunity (id : string) (data : OpportunityData)
  | PartnerUpdateOpportunity (id : string) (data : OpportunityData)
  | RaintreeUpdateLead (id : string) (data : LeadData)
  | PartnerUpdateLead (id : string) (data : LeadData).

Definition isUpdate (c : Call) : bool :=
  match c with
  | RaintreeUpdateOpportunity _ _ | PartnerUpdateOpportunity _ _
  | RaintreeUpdateLead _ _ | PartnerUpdateLead _ _ => true
  | _ => false
  end.

(** Everything outside [SyncService]: the JavaScript built-ins it uses and
    the two Salesforce orgs behind [SalesforceService] and
    [RaintreeSalesforceService].  A remote operation answers from the current
    state of the world and moves it. *)
Record Env := {
  World : Type;
  PartnerService : Type;
  (* new Date(s).getTime(), None for NaN *)
  Date_getTime : string → option Z;
  (* String.prototype.trim *)
  String_trim : string → string;
  (* new Date().toISOString() *)
  Date_now : World → string * World;
  SalesforceService_createWithCredentials :
    SalesforceCredentials → World → Outcome PartnerService * World;
  SalesforceService_getOpportunities :
    PartnerService → World → Outcome (list SalesforceOpportunity) * World;
  SalesforceService_getLeads :
    PartnerService → World → Outcome (list SalesforceLead) * World;
  SalesforceService_updateOpportunity :
    PartnerService → string → OpportunityData → World → Outcome unit * World;
  SalesforceService_updateLead :
    PartnerService → string → LeadData → World → Outcome unit * World;
  (* a falsy response body is None *)
  Raintree_getOpportunity :
    string → World → Outcome (option SalesforceOpportunity) * World;
  Raintree_getLead :
    string → World → Outcome (option SalesforceLead) * World;
  Raintree_updateOpportunity :
    string → OpportunityData → World → Outcome unit * World;
  Raintree_updateLead :
    string → LeadData → World → Outcome unit * World
}.

(** The summary of the route [POST /api/sync/detect-changes]. *)
Record Summary := {
  total : nat;
  synced : nat;
  failed : nat;
  conflicts : nat
}.

(** The action the engine takes for one mapping. *)
Inductive SyncAction :=
  | NoOp
  | PropagatePartnerToRaintree
  | PropagateRaintreeToPartner.

Section Engine.

Context (env : Env).

(** *** The monad of the engine *)

Record Run (A : Type) := {
  outcome : Outcome A;
  after : World env;
  calls : list Call
}.
Arguments outcome {A} r.
Arguments after {A} r.
Arguments calls {A} r.

Definition M (A : Type) : Type := World env → Run A.

Definition ret {A} (a : A) : M A :=
  λ w, {| outcome := Returns a; after := w; calls := [] |}.

Definition throw {A} (message : string) : M A :=
  λ w, {| outcome := Throws message; after := w; calls := [] |}.

Definition bind {A B} (m : M A) (f : A → M B) : M B :=
  λ w,
    let r := m w in
    match outcome r with
    | Returns a =>
        let r' := f a (after r) in
        {| outcome := outcome r'; after := after r';
           calls := calls r ++ calls r' |}
    | Throws e => {| outcome := Throws e; after := after r; calls := calls r |}
    end.

(** [try { body } catch (error) { handler(error.message) }]. *)
Definition try_catch {A} (body : M A) (handler : string → M A) : M A :=
  λ w,
    let r := body w in
    match outcome r with
    | Returns a => r
    | Throws e =>
        let r' := handler e (after r) in
        {| outcome := outcome r'; after := after r';
           calls := calls r ++ calls r' |}
    end.

(** A gateway operation: logged, then answered by the environment. *)
Definition remote {A} (c : Call) (op : World env → Outcome A * World env) : M A :=
  λ w, let '(o, w') := op w in {| outcome := o; after := w'; calls := [c] |}.

Definition now : M string :=
  λ w, let '(s, w') := Date_now env w in
       {| outcome := Returns s; after := w'; calls := [] |}.

Notation "'let*' x ':=' m 'in' k" := (bind m (λ x, k))
  (at level 10, x name, m at level 100, k at level 200,
   format "'[v' 'let*'  x  ':='  m  'in'  '/' k ']'").

(** [for (const x of l) { acc = body(acc, x) }]. *)
Fixpoint forEach {A S} (body : S → A → M S) (l : list A) (acc : S) : M S :=
  match l with
  | [] => ret acc
  | x :: l' => let* acc' := body acc x in forEach body l' acc'
  end.

(** *** Change detection and direction (lines 190-226 and 301-335) *)

(** [new Date(v).getTime()] for a string or [undefined]. *)
Definition getTime (v : option string) : option Z :=
  match v with
  | Some s => Date_getTime env s
  | None => None
  end.

Definition partnerHasNewChanges (mapping : SyncMapping)
    (partnerObserved : option string) : bool :=
  js_gt (getTime partnerObserved) (getTime (partnerLastModified mapping)).

Definition raintreeHasNewChanges (mapping : SyncMapping)
    (raintreeObserved : option string) : bool :=
  js_gt (getTime raintreeObserved) (getTime (raintreeLastModified mapping)).

(** The pair [(syncDirection, shouldSync)] after the [if] cascade; the two
    observed values are [LastModifiedDate || CreatedDate] of the records. *)
Definition decideDirection (mapping : SyncMapping)
    (partnerObserved raintreeObserved : option string) : SyncDirection * bool :=
  if partnerHasNewChanges mapping partnerObserved
     && raintreeHasNewChanges mapping raintreeObserved then
    (* Conflict: both systems have new changes *)
    if js_gt (getTime partnerObserved) (getTime raintreeObserved)
    then (partner_to_raintree, true)
    else (raintree_to_partner, true)
  else if partnerHasNewChanges mapping partnerObserved then
    if bool_decide (lastSyncSource mapping ≠ raintree)
    then (partner_to_raintree, true)
    else (none, false)
  else if raintreeHasNewChanges mapping raintreeObserved then
    if bool_decide (lastSyncSource mapping ≠ partner)
    then (raintree_to_partner, true)
    else (none, false)
  else (none, false).

(** How the rest of the record function dispatches on that pair: nothing
    when [shouldSync] is false, else one update by direction. *)
Definition actionOf (d : SyncDirection * bool) : SyncAction :=
  match d with
  | (_, false) => NoOp
  | (partner_to_raintree, true) => PropagatePartnerToRaintree
  | (raintree_to_partner, true) => PropagateRaintreeToPartner
  | (_, true) => NoOp
  end.

Definition opportunityModified (o : SalesforceOpportunity) : option string :=
  js_or (opp_LastModifiedDate o) (opp_CreatedDate o).

Definition leadModified (l : SalesforceLead) : option string :=
  js_or (lead_LastModifiedDate l) (lead_CreatedDate l).

(** *** One record ([syncOpportunityRecord], [syncLeadRecord]) *)

Definition opportunityName (partnerOpp : SalesforceOpportunity) : string :=
  js_or_default (opp_Name partnerOpp) "Unknown".

(** [`${FirstName || ''} ${LastName || ''}`.trim() || 'Unknown']. *)
Definition leadName (partnerLead : SalesforceLead) : string :=
  js_or_default
    (Some (String_trim env (js_or_default (lead_FirstName partnerLead) ""
                            ++ " " ++ js_or_default (lead_LastName partnerLead) "")))
    "Unknown".

Definition opportunityData (o : SalesforceOpportunity) : OpportunityData :=
  {| upd_Name := opp_Name o;
     upd_StageName := opp_StageName o;
     upd_Amount := js_or_zero (opp_Amount o);
     upd_CloseDate := opp_CloseDate o |}.

Definition leadData (l : SalesforceLead) : LeadData :=
  {| ld_FirstName := js_or_default (lead_FirstName l) "";
     ld_LastName := js_or_default (lead_LastName l) "";
     ld_Company := js_or_default (lead_Company l) "";
     ld_Email := js_or_default (lead_Email l) "";
     ld_Status := js_or_default (lead_Status l) "Open - Not Contacted" |}.

Definition syncOpportunityRecord (partnerOpp raintreeOpp : SalesforceOpportunity)
    (mapping : SyncMapping) (partnerService : PartnerService env) : M SyncResult :=
  let '(direction, shouldSync) :=
    decideDirection mapping (opportunityModified partnerOpp)
                    (opportunityModified raintreeOpp) in
  if negb shouldSync then
    let* ts := now in
    ret {| recordId := partnerId mapping;
           recordName := opportunityName partnerOpp;
           syncDirection := none; success := true; error := None;
           timestamp := ts |}
  else
    let* returned :=
      try_catch
        (match direction with
         | partner_to_raintree =>
             let* _ := remote
                 (RaintreeUpdateOpportunity (raintreeId mapping)
                    (opportunityData partnerOpp))
                 (Raintree_updateOpportunity env (raintreeId mapping)
                    (opportunityData partnerOpp)) in
             let* ts := now in
             ret (Some {| recordId := partnerId mapping;
                          recordName := opportunityName partnerOpp;
                          syncDirection := partner_to_raintree;
                          success := true; error := None; timestamp := ts |})
         | raintree_to_partner =>
             let* _ := remote
                 (PartnerUpdateOpportunity (partnerId mapping)
                    (opportunityData raintreeOpp))
                 (SalesforceService_updateOpportunity env partnerService
                    (partnerId mapping) (opportunityData raintreeOpp)) in
             let* ts := now in
             ret (Some {| recordId := partnerId mapping;
                          recordName := opportunityName partnerOpp;
                          syncDirection := raintree_to_partner;
                          success := true; error := None; timestamp := ts |})
         | _ => ret None
         end)
        (λ message,
           let* ts := now in
           ret (Some {| recordId := partnerId mapping;
                        recordName := opportunityName partnerOpp;
                        syncDirection := direction;
                        success := false; error := Some message;
                        timestamp := ts |})) in
    match returned with
    | Some result => ret result
    | None =>
        let* ts := now in
        ret {| recordId := partnerId mapping;
               recordName := opportunityName partnerOpp;
               syncDirection := none; success := true; error := None;
               timestamp := ts |}
    end.

Definition syncLeadRecord (partnerLead raintreeLead : SalesforceLead)
    (mapping : SyncMapping) (partnerService : PartnerService env) : M SyncResult :=
  let '(direction, shouldSync) :=
    decideDirection mapping (leadModified partnerLead)
                    (leadModified raintreeLead) in
  if negb shouldSync then
    let* ts := now in
    ret {| recordId := partnerId mapping;
           recordName := leadName partnerLead;
           syncDirection := none; success := true; error := None;
           timestamp := ts |}
  else
    let* returned :=
      try_catch
        (match direction with
         | partner_to_raintree =>
             let* _ := remote
                 (RaintreeUpdateLead (raintreeId mapping) (leadData partnerLead))
                 (Raintree_updateLead env (raintreeId mapping)
                    (leadData partnerLead)) in
             let* ts := now in
             ret (Some {| recordId := partnerId mapping;
                          recordName := leadName partnerLead;
                          syncDirection := partner_to_raintree;
                          success := true; error := None; timestamp := ts |})
         | raintree_to_partner =>
             let* _ := remote
                 (PartnerUpdateLead (partnerId mapping) (leadData raintreeLead))
                 (SalesforceService_updateLead env partnerService
                    (partnerId mapping) (leadData raintreeLead)) in
             let* ts := now in
             ret (Some {| recordId := partnerId mapping;
                          recordName := leadName partnerLead;
                          syncDirection := raintree_to_partner;
                          success := true; error := None; timestamp := ts |})
         | _ => ret None
         end)
        (λ message,
           let* ts := now in
           ret (Some {| recordId := partnerId mapping;
                        recordName := leadName partnerLead;
                        syncDirection := direction;
                        success := false; error := Some message;
                        timestamp := ts |})) in
    match returned with
    | Some result => ret result
    | None =>
        let* ts := now in
        ret {| recordId := partnerId mapping;
               recordName := leadName partnerLead;
               syncDirection := none; success := true; error := None;
               timestamp := ts |}
    end.

(** *** One pass ([syncOpportunities], [syncLeads]) *)

(** The argument [mappings : Record<string, SyncMapping>] is given by its
    [Object.entries], in iteration order; the keys of an object are distinct. *)
Definition Mappings : Type := list (string * SyncMapping).

(** [new Map(partnerOpps.map(opp => [opp.Id, opp]))]: a later record with the
    same id replaces an earlier one. *)
Definition opportunitiesById (partnerOpps : list SalesforceOpportunity)
    : gmap string SalesforceOpportunity :=
  foldl (λ m opp, <[opp_Id opp := opp]> m) ∅ partnerOpps.

Definition leadsById (partnerLeads : list SalesforceLead)
    : gmap string SalesforceLead :=
  foldl (λ m lead, <[lead_Id lead := lead]> m) ∅ partnerLeads.

(** The object stored at [updatedMappings[partnerId]] (lines 94-102). *)
Definition updatedMapping (mapping : SyncMapping)
    (partnerObserved raintreeObserved : option string)
    (syncResult : SyncResult) : SyncMapping :=
  {| partnerId := partnerId mapping;
     raintreeId := raintreeId mapping;
     partnerLastModified := partnerObserved;
     raintreeLastModified := raintreeObserved;
     lastSyncSource :=
       match syncDirection syncResult with
       | partner_to_raintree => partner
       | raintree_to_partner => raintree
       | _ => lastSyncSource mapping
       end;
     lastSyncTime := timestamp syncResult |}.

(** Body of the loop that fetches the Raintree records (lines 64-73). *)
Definition fetchRaintreeOpportunity
    (raintreeOppMap : gmap string SalesforceOpportunity)
    (entry : string * SyncMapping) : M (gmap string SalesforceOpportunity) :=
  let '(key, mapping) := entry in
  try_catch
    (let* raintreeOpp :=
       remote (RaintreeGetOpportunity (raintreeId mapping))
              (Raintree_getOpportunity env (raintreeId mapping)) in
     ret (match raintreeOpp with
          | Some o => <[key := o]> raintreeOppMap
          | None => raintreeOppMap
          end))
    (λ _, ret raintreeOppMap).

(** Body of the loop that processes the mappings (lines 76-103). *)
Definition processOpportunity
    (partnerOppMap raintreeOppMap : gmap string SalesforceOpportunity)
    (partnerService : PartnerService env)
    (acc : list SyncResult * gmap string SyncMapping)
    (entry : string * SyncMapping)
    : M (list SyncResult * gmap string SyncMapping) :=
  let '(key, mapping) := entry in
  let '(results, updatedMappings) := acc in
  match partnerOppMap !! key, raintreeOppMap !! key with
  | Some partnerOpp, Some raintreeOpp =>
      let* syncResult :=
        syncOpportunityRecord partnerOpp raintreeOpp mapping partnerService in
      ret ((results ++ [syncResult])%list,
           <[key := updatedMapping mapping (opportunityModified partnerOpp)
                      (opportunityModified raintreeOpp) syncResult]>
             updatedMappings)
  | _, _ => ret acc
  end.

Definition syncOpportunities (partnerCredentials : SalesforceCredentials)
    (mappings : Mappings) : M (list SyncResult * gmap string SyncMapping) :=
  try_catch
    (let* partnerService :=
       remote (CreateWithCredentials partnerCredentials)
              (SalesforceService_createWithCredentials env partnerCredentials) in
     let* partnerOpps :=
       remote PartnerGetOpportunities
              (SalesforceService_getOpportunities env partnerService) in
     let partnerOppMap := opportunitiesById partnerOpps in
     let* raintreeOppMap := forEach fetchRaintreeOpportunity mappings ∅ in
     forEach (processOpportunity partnerOppMap raintreeOppMap partnerService)
             mappings ([], list_to_map mappings))
    (λ message, throw message).

Definition fetchRaintreeLead
    (raintreeLeadMap : gmap string SalesforceLead)
    (entry : string * SyncMapping) : M (gmap string SalesforceLead) :=
  let '(key, mapping) := entry in
  try_catch
    (let* raintreeLead :=
       remote (RaintreeGetLead (raintreeId mapping))
              (Raintree_getLead env (raintreeId mapping)) in
     ret (match raintreeLead with
          | Some l => <[key := l]> raintreeLeadMap
          | None => raintreeLeadMap
          end))
    (λ _, ret raintreeLeadMap).

Definition processLead
    (partnerLeadMap raintreeLeadMap : gmap string SalesforceLead)
    (partnerService : PartnerService env)
    (acc : list SyncResult * gmap string SyncMapping)
    (entry : string * SyncMapping)
    : M (list SyncResult * gmap string SyncMapping) :=
  let '(key, mapping) := entry in
  let '(results, updatedMappings) := acc in
  match partnerLeadMap !! key, raintreeLeadMap !! key with
  | Some partnerLead, Some raintreeLead =>
      let* syncResult :=
        syncLeadRecord partnerLead raintreeLead mapping partnerService in
      ret ((results ++ [syncResult])%list,
           <[key := updatedMapping mapping (leadModified partnerLead)
                      (leadModified raintreeLead) syncResult]>
             updatedMappings)
  | _, _ => ret acc
  end.

Definition syncLeads (partnerCredentials : SalesforceCredentials)
    (mappings : Mappings) : M (list SyncResult * gmap string SyncMapping) :=
  try_catch
    (let* partnerService :=
       remote (CreateWithCredentials partnerCredentials)
              (SalesforceService_createWithCredentials env partnerCredentials) in
     let* partnerLeads :=
       remote PartnerGetLeads
              (SalesforceService_getLeads env partnerService) in
     let partnerLeadMap := leadsById partnerLeads in
     let* raintreeLeadMap := forEach fetchRaintreeLead mappings ∅ in
     forEach (processLead partnerLeadMap raintreeLeadMap partnerService)
             mappings ([], list_to_map mappings))
    (λ message, throw message).

End Engine.

Arguments outcome {env A} r.
Arguments after {env A} r.
Arguments calls {env A} r.
Arguments ret {env A} a.
Arguments throw {env A} message.
Arguments bind {env A B} m f.
Arguments try_catch {env A} body handler.
Arguments remote {env A} c op.
Arguments forEach {env A S} body l acc.

Notation "'let*' x ':=' m 'in' k" := (bind m (λ x, k))
  (at level 10, x name, m at level 100, k at level 200,
   format "'[v' 'let*'  x  ':='  m  'in'  '/' k ']'").

(** *** The summary of the route ([routes/sync.ts], lines 92-98) *)

Definition summarize (allResults : list SyncResult) : Summary :=
  {| total := length allResults;
     synced :=
       length (List.filter
                 (λ r, success r && bool_decide (syncDirection r ≠ none))
                 allResults);
     failed := length (List.filter (λ r, negb (success r)) allResults);
     conflicts :=
       length (List.filter (λ r, bool_decide (syncDirection r = conflict))
                 allResults) |}.

(** *** The two record kinds, side by side *)

Inductive RecordKind := Opportunity | Lead.

Definition recordOf (kind : RecordKind) : Type :=
  match kind with
  | Opportunity => SalesforceOpportunity
  | Lead => SalesforceLead
  end.

(** [record.LastModifiedDate || record.CreatedDate]. *)
Definition modifiedDate (kind : RecordKind) : recordOf kind → option string :=
  match kind with
  | Opportunity => opportunityModified
  | Lead => leadModified
  end.

Definition nameOf (env : Env) (kind : RecordKind) : recordOf kind → string :=
  match kind with
  | Opportunity => opportunityName
  | Lead => leadName env
  end.

Definition syncRecord (env : Env) (kind : RecordKind)
    : recordOf kind → recordOf kind → SyncMapping → PartnerService env →
      M env SyncResult :=
  match kind with
  | Opportunity => syncOpportunityRecord env
  | Lead => syncLeadRecord env
  end.

Definition syncPass (env : Env) (kind : RecordKind)
    : SalesforceCredentials → Mappings →
      M env (list SyncResult * gmap string SyncMapping) :=
  match kind with
  | Opportunity => syncOpportunities env
  | Lead => syncLeads env
  end.

(** The decision taken for one mapping and the two observed records. *)
Definition decide (env : Env) (kind : RecordKind) (mapping : SyncMapping)
    (partnerRecord raintreeRecord : recordOf kind) : SyncAction :=
  actionOf (decideDirection env mapping (modifiedDate kind partnerRecord)
              (modifiedDate kind raintreeRecord)).

(** The stages of a pass, by kind. *)

Definition fetchAll (env : Env) (kind : RecordKind)
    : PartnerService env → M env (list (recordOf kind)) :=
  match kind with
  | Opportunity => λ partnerService,
      remote PartnerGetOpportunities
             (SalesforceService_getOpportunities env partnerService)
  | Lead => λ partnerService,
      remote PartnerGetLeads (SalesforceService_getLeads env partnerService)
  end.

Definition byId (kind : RecordKind)
    : list (recordOf kind) → gmap string (recordOf kind) :=
  match kind with
  | Opportunity => opportunitiesById
  | Lead => leadsById
  end.

Definition fetchRaintreeRecord (env : Env) (kind : RecordKind)
    : gmap string (recordOf kind) → string * SyncMapping →
      M env (gmap string (recordOf kind)) :=
  match kind with
  | Opportunity => fetchRaintreeOpportunity env
  | Lead => fetchRaintreeLead env
  end.

Definition processMapping (env : Env) (kind : RecordKind)
    : gmap string (recordOf kind) → gmap string (recordOf kind) →
      PartnerService env → list SyncResult * gmap string SyncMapping →
      string * SyncMapping →
      M env (list SyncResult * gmap string SyncMapping) :=
  match kind with
  | Opportunity => processOpportunity env
  | Lead => processLead env
  end.

(** Lines 56-60: log in and index the Partner records by id. *)
Definition loginAndFetch (env : Env) (kind : RecordKind)
    (partnerCredentials : SalesforceCredentials)
    : M env (PartnerService env * gmap string (recordOf kind)) :=
  let* partnerService :=
    remote (CreateWithCredentials partnerCredentials)
      (SalesforceService_createWithCredentials env partnerCredentials) in
  let* records := fetchAll env kind partnerService in
  ret (partnerService, byId kind records).

(** The first loop, from the empty map. *)
Definition fetchRaintreeRecords (env : Env) (kind : RecordKind)
    (mappings : Mappings) : M env (gmap string (recordOf kind)) :=
  forEach (fetchRaintreeRecord env kind) mappings ∅.

(** The second loop, resumed at any point. *)
Definition processMappings (env : Env) (kind : RecordKind)
    (partnerMap raintreeMap : gmap string (recordOf kind))
    (partnerService : PartnerService env) (mappings : Mappings)
    (acc : list SyncResult * gmap string SyncMapping)
    : M env (list SyncResult * gmap string SyncMapping) :=
  forEach (processMapping env kind partnerMap raintreeMap partnerService)
          mappings acc.

(** A mapping is processed when both of its records were obtained. *)
Definition processed {kind : RecordKind}
    (partnerMap raintreeMap : gmap string (recordOf kind))
    (entry : string * SyncMapping) : bool :=
  bool_decide (is_Some (partnerMap !! entry.1))
  && bool_decide (is_Some (raintreeMap !! entry.1)).

(** A result is accounted for by the mappings [l] when it was returned for
    one of them whose two records were obtained, and the mapping stored under
    its key is the one written together with that result. *)
Definition accounted (env : Env) (kind : RecordKind)
    (partnerMap raintreeMap : gmap string (recordOf kind))
    (partnerService : PartnerService env) (l : Mappings)
    (updated : gmap string SyncMapping) (syncResult : SyncResult) : Prop :=
  ∃ key mapping partnerRecord raintreeRecord w',
    (key, mapping) ∈ l
    ∧ partnerMap !! key = Some partnerRecord
    ∧ raintreeMap !! key = Some raintreeRecord
    ∧ outcome (syncRecord env kind partnerRecord raintreeRecord mapping
                 partnerService w') = Returns syncResult
    ∧ updated !! key
      = Some (updatedMapping mapping (modifiedDate kind partnerRecord)
                (modifiedDate kind raintreeRecord) syncResult).

(** The gateway and the record id an update call addresses. *)
Definition updateTarget (c : Call) : option (SyncSource * string) :=
  match c with
  | RaintreeUpdateOpportunity id _ | RaintreeUpdateLead id _ => Some (raintree, id)
  | PartnerUpdateOpportunity id _ | PartnerUpdateLead id _ => Some (partner, id)
  | _ => None
  end.

(** The answer of the Raintree org to the fetch of one record by id. *)
Definition raintreeFetch (env : Env) (kind : RecordKind)
    : string → World env → Outcome (option (recordOf kind)) * World env :=
  match kind with
  | Opportunity => Raintree_getOpportunity env
  | Lead => Raintree_getLead env
  end.

(** The update an action stands for: the call issued on the gateway of the
    side that receives the change, with the field values of the other side. *)
Definition updateCall (kind : RecordKind) (action : SyncAction)
    (mapping : SyncMapping) : recordOf kind → recordOf kind → option Call :=
  match kind with
  | Opportunity => λ partnerOpp raintreeOpp,
      match action with
      | NoOp => None
      | PropagatePartnerToRaintree =>
          Some (RaintreeUpdateOpportunity (raintreeId mapping)
                  (opportunityData partnerOpp))
      | PropagateRaintreeToPartner =>
          Some (PartnerUpdateOpportunity (partnerId mapping)
                  (opportunityData raintreeOpp))
      end
  | Lead => λ partnerLead raintreeLead,
      match action with
      | NoOp => None
      | PropagatePartnerToRaintree =>
          Some (RaintreeUpdateLead (raintreeId mapping) (leadData partnerLead))
      | PropagateRaintreeToPartner =>
          Some (PartnerUpdateLead (partnerId mapping) (leadData raintreeLead))
      end
  end.

(** The answer of the environment to a gateway update call. *)
Definition performUpdate (env : Env) (partnerService : PartnerService env)
    (c : Call) (w : World env) : Outcome unit * World env :=
  match c with
  | RaintreeUpdateOpportunity id data => Raintree_updateOpportunity env id data w
  | PartnerUpdateOpportunity id data =>
      SalesforceService_updateOpportunity env partnerService id data w
  | RaintreeUpdateLead id data => Raintree_updateLead env id data w
  | PartnerUpdateLead id data =>
      SalesforceService_updateLead env partnerService id data w
  | _ => (Returns (), w)
  end.

(** The direction and the source that go with an action. *)
Definition directionOf (action : SyncAction) : SyncDirection :=
  match action with
  | NoOp => none
  | PropagatePartnerToRaintree => partner_to_raintree
  | PropagateRaintreeToPartner => raintree_to_partner
  end.

Definition sourceAfter (action : SyncAction) (mapping : SyncMapping) : SyncSource :=
  match action with
  | NoOp => lastSyncSource mapping
  | PropagatePartnerToRaintree => partner
  | PropagateRaintreeToPartner => raintree
  end.

(** The [SyncResult] built for a mapping, from the action taken, the answer
    to the update call (if any) and the time of the report. *)
Definition resultOf (env : Env) (kind : RecordKind) (mapping : SyncMapping)
    (partnerRecord : recordOf kind) (action : SyncAction)
    (answer : Outcome unit) (ts : string) : SyncResult :=
  {| recordId := partnerId mapping;
     recordName := nameOf env kind partnerRecord;
     syncDirection := directionOf action;
     success := match answer with Returns _ => true | Throws _ => false end;
     error := match answer with Returns _ => None | Throws e => Some e end;
     timestamp := ts |}.

(** ** Around the engine *)

(** *** The calls of a pass *)

Definition recordIdOf (kind : RecordKind) : recordOf kind → string :=
  match kind with
  | Opportunity => opp_Id
  | Lead => lead_Id
  end.

(** The bulk query on the Partner org. *)
Definition fetchAllCall (kind : RecordKind) : Call :=
  match kind with
  | Opportunity => PartnerGetOpportunities
  | Lead => PartnerGetLeads
  end.

(** The fetch of the Raintree record of one mapping. *)
Definition fetchCall (kind : RecordKind) (entry : string * SyncMapping) : Call :=
  match kind with
  | Opportunity => RaintreeGetOpportunity (raintreeId entry.2)
  | Lead => RaintreeGetLead (raintreeId entry.2)
  end.

(** [r.syncDirection !== 'none']. *)
Definition propagated (r : SyncResult) : bool :=
  bool_decide (syncDirection r ≠ none).

(** *** The route [POST /api/sync/detect-changes]: the mappings of a request

    A value of [opportunityMappings] or [leadMappings] is either the id of
    the Raintree record (simple format) or a [SyncMapping] (enhanced
    format). *)
Inductive RequestMapping :=
  | Simple (raintreeRecordId : string)
  | Enhanced (mapping : SyncMapping).

(** Body of the two conversion loops ([routes/sync.ts], lines 50-84): the
    three [new Date().toISOString()] of the object literal are read in the
    order of its fields. *)
Definition normalizeMapping (env : Env) (entry : string * RequestMapping)
    : M env (string * SyncMapping) :=
  match entry.2 with
  | Simple raintreeRecordId =>
      let* t1 := now env in
      let* t2 := now env in
      let* t3 := now env in
      ret (entry.1,
           {| partnerId := entry.1;
              raintreeId := raintreeRecordId;
              partnerLastModified := Some t1;
              raintreeLastModified := Some t2;
              lastSyncSource := system;
              lastSyncTime := t3 |})
  | Enhanced mapping => ret (entry.1, mapping)
  end.

(** [obj[key] = value] on an object created as [{}]: every key becomes an
    own property except [__proto__], which is the accessor of
    [Object.prototype] and sets the prototype instead. *)
Definition addsOwnKey (key : string) : bool :=
  negb (String.eqb key "__proto__").

(** The loop: [oppMappings[partnerId] = ...] on a fresh object, for the
    entries of the request in order; the converted value is built (and the
    clock read) before the assignment, whatever the key. *)
Definition normalizeMappings (env : Env)
    (requestMappings : list (string * RequestMapping)) : M env Mappings :=
  forEach (λ converted entry,
             let* mapping := normalizeMapping env entry in
             ret (if addsOwnKey entry.1
                  then (converted ++ [mapping])%list
                  else converted))
          requestMappings [].

(** *** The dashboard: notifications of a sync ([App.tsx], lines 217-262) *)

Inductive NotificationType := notify_success | notify_error | notify_info.

(** The nested conditional that names the direction in a notification. *)
Definition directionLabel (d : SyncDirection) : string :=
  match d with
  | partner_to_raintree => "Partner → Raintree"
  | raintree_to_partner => "Raintree → Partner"
  | _ => "Conflict resolved"
  end.

(** [`${result.error}`]: an absent message prints as [undefined]. *)
Definition interpolate (v : option string) : string :=
  match v with
  | Some s => s
  | None => "undefined"
  end.

(** Body of the two [forEach] over the results: the notification added for
    one result, if any. *)
Definition notificationOf (result : SyncResult)
    : option (string * NotificationType) :=
  if success result && propagated result then
    Some (recordName result ++ " synced ("
          ++ directionLabel (syncDirection result) ++ ")", notify_success)
  else if negb (success result) then
    Some ("Failed to sync " ++ recordName result ++ ": "
          ++ interpolate (error result), notify_error)
  else None.

(** The notifications of one poll, opportunities first. *)
Definition notifications (opportunityResults leadResults : list SyncResult)
    : list (string * NotificationType) :=
  (omap notificationOf opportunityResults
   ++ omap notificationOf leadResults)%list.

(** [hasChanges] after the two loops: the data is loaded again when true. *)
Definition hasChanges (opportunityResults leadResults : list SyncResult) : bool :=
  existsb (λ r, success r && propagated r) opportunityResults
  || existsb (λ r, success r && propagated r) leadResults.

(** ** A concrete environment

    Used to run the engine on explicit inputs: the world is a counter of the
    operations performed so far, and the two orgs answer from fixed tables. *)

Module Scenario.

Definition digit (c : ascii) : option Z :=
  let n := Z.of_nat (nat_of_ascii c) in
  if ((48 <=? n) && (n <=? 57))%Z then Some (n - 48)%Z else None.

Fixpoint number (acc : Z) (l : list ascii) : option Z :=
  match l with
  | [] => Some acc
  | c :: l' => d ← digit c; number (acc * 10 + d)%Z l'
  end.

(** Days between 1970-01-01 and the given civil date. *)
Definition daysFromCivil (y m d : Z) : Z :=
  let y' := if (m <=? 2)%Z then (y - 1)%Z else y in
  let era := (y' `div` 400)%Z in
  let yoe := (y' - era * 400)%Z in
  let mp := if (2 <? m)%Z then (m - 3)%Z else (m + 9)%Z in
  let doy := ((153 * mp + 2) `div` 5 + d - 1)%Z in
  let doe := (yoe * 365 + yoe `div` 4 - yoe `div` 100 + doy)%Z in
  (era * 146097 + doe - 719468)%Z.

(** [Date.parse] on the format of [toISOString], [YYYY-MM-DDTHH:mm:ss.sssZ],
    for the days 1 to 28 that every month has; every other string is taken as
    an invalid date. *)
Definition parseISO (s : string) : option Z :=
  match list_ascii_of_string s with
  | [y1; y2; y3; y4; "-"; m1; m2; "-"; d1; d2; "T";
     h1; h2; ":"; n1; n2; ":"; s1; s2; "."; f1; f2; f3; "Z"]%char =>
      y ← number 0 [y1; y2; y3; y4];
      m ← number 0 [m1; m2];
      d ← number 0 [d1; d2];
      h ← number 0 [h1; h2];
      n ← number 0 [n1; n2];
      sec ← number 0 [s1; s2];
      ms ← number 0 [f1; f2; f3];
      if ((1 <=? m) && (m <=? 12) && (1 <=? d) && (d <=? 28)
          && (h <=? 23) && (n <=? 59) && (sec <=? 59))%Z
      then Some ((((daysFromCivil y m d * 24 + h) * 60 + n) * 60 + sec) * 1000
                 + ms)%Z
      else None
  | _ => None
  end.

Definition isSpace (c : ascii) : bool :=
  let n := nat_of_ascii c in
  (n =? 32)%nat || ((9 <=? n)%nat && (n <=? 13)%nat).

Fixpoint dropSpaces (l : list ascii) : list ascii :=
  match l with
  | c :: l' => if isSpace c then dropSpaces l' else l
  | [] => []
  end.

(** [trim] on strings of ASCII characters. *)
Definition trimASCII (s : string) : string :=
  string_of_list_ascii
    (rev (dropSpaces (rev (dropSpaces (list_ascii_of_string s))))).

(** What the two orgs answer. *)
Record Remote := {
  partnerLogin : Outcome unit;
  partnerOpportunities : Outcome (list SalesforceOpportunity);
  partnerLeads : Outcome (list SalesforceLead);
  raintreeOpportunities : list (string * SalesforceOpportunity);
  raintreeLeads : list (string * SalesforceLead);
  raintreeUpdate : Outcome unit;
  partnerUpdate : Outcome unit;
  clock : string
}.

Fixpoint lookupById {R} (id : string) (table : list (string * R)) : option R :=
  match table with
  | [] => None
  | (k, r) :: table' => if String.eqb k id then Some r else lookupById id table'
  end.

Definition getById {R} (table : list (string * R)) (id : string) (w : nat)
    : Outcome (option R) * nat :=
  match lookupById id table with
  | Some r => (Returns (Some r), S w)
  | None => (Throws "Request failed with status code 404", S w)
  end.

Definition env (r : Remote) : Env :=
  {| World := nat;
     PartnerService := unit;
     Date_getTime := parseISO;
     String_trim := trimASCII;
     Date_now := λ w, (clock r, w);
     SalesforceService_createWithCredentials := λ _ w, (partnerLogin r, S w);
     SalesforceService_getOpportunities := λ _ w, (partnerOpportunities r, S w);
     SalesforceService_getLeads := λ _ w, (partnerLeads r, S w);
     SalesforceService_updateOpportunity := λ _ _ _ w, (partnerUpdate r, S w);
     SalesforceService_updateLead := λ _ _ _ w, (partnerUpdate r, S w);
     Raintree_getOpportunity := getById (raintreeOpportunities r);
     Raintree_getLead := getById (raintreeLeads r);
     Raintree_updateOpportunity := λ _ _ w, (raintreeUpdate r, S w);
     Raintree_updateLead := λ _ _ w, (raintreeUpdate r, S w) |}.

Definition credentials : SalesforceCredentials :=
  {| email := "partner@example.com"; password := "secret";
     securityToken := "k7pk2qQxLl221rkFqNEfy7Xp" |}.

Definition T0 : string := "2024-01-01T00:00:00.000Z".
Definition T1 : string := "2024-01-02T00:00:00.000Z".
Definition T2 : string := "2024-01-03T00:00:00.000Z".
Definition T3 : string := "2024-01-05T00:00:00.000Z".

Definition opportunity (id name modified : string) : SalesforceOpportunity :=
  {| opp_Id := id; opp_Name := Some name; opp_StageName := Some "Prospecting";
     opp_Amount := Some 1000%Z; opp_CloseDate := Some "2024-06-30";
     opp_CreatedDate := Some T0; opp_LastModifiedDate := Some modified |}.

Definition lead (id first last modified : string) : SalesforceLead :=
  {| lead_Id := id; lead_FirstName := Some first; lead_LastName := Some last;
     lead_Company := Some "Acme"; lead_Email := Some "ada@example.com";
     lead_Status := Some "Open - Not Contacted";
     lead_CreatedDate := Some T0; lead_LastModifiedDate := Some modified |}.

Definition mapping (pid rid : string) (pm rm : string) (src : SyncSource)
    : SyncMapping :=
  {| partnerId := pid; raintreeId := rid;
     partnerLastModified := Some pm; raintreeLastModified := Some rm;
     lastSyncSource := src; lastSyncTime := T0 |}.

(** One opportunity and one lead, paired with their Raintree records. *)
Definition partnerOpportunity (modified : string) : SalesforceOpportunity :=
  opportunity "006P" "Big deal" modified.

Definition raintreeOpportunity (modified : string) : SalesforceOpportunity :=
  opportunity "006R" "Big deal (Raintree)" modified.

Definition partnerLead (modified : string) : SalesforceLead :=
  lead "00QP" "Ada" "Lovelace" modified.

Definition raintreeLead (modified : string) : SalesforceLead :=
  lead "00QR" "Ada" "Byron" modified.

Definition orgs (partnerModified raintreeModified : string)
    (updates : Outcome unit) : Remote :=
  {| partnerLogin := Returns ();
     partnerOpportunities := Returns [partnerOpportunity partnerModified];
     partnerLeads := Returns [partnerLead partnerModified];
     raintreeOpportunities := [("006R", raintreeOpportunity raintreeModified)];
     raintreeLeads := [("00QR", raintreeLead raintreeModified)];
     raintreeUpdate := updates;
     partnerUpdate := updates;
     clock := T3 |}.

(** The Partner org accepts the login and fails the bulk query. *)
Definition bulkQueryFails : Remote :=
  {| partnerLogin := Returns ();
     partnerOpportunities :=
       Throws "Salesforce API error: Session expired or invalid";
     partnerLeads := Throws "Salesforce API error: Session expired or invalid";
     raintreeOpportunities := [("006R", raintreeOpportunity T0)];
     raintreeLeads := [("00QR", raintreeLead T0)];
     raintreeUpdate := Returns ();
     partnerUpdate := Returns ();
     clock := T3 |}.

(** The Partner org refuses the credentials. *)
Definition loginFails : Remote :=
  {| partnerLogin :=
       Throws "Salesforce authentication failed: Invalid username, password, or security token. Please verify your credentials.";
     partnerOpportunities := Returns [];
     partnerLeads := Returns [];
     raintreeOpportunities := [];
     raintreeLeads := [];
     raintreeUpdate := Returns ();
     partnerUpdate := Returns ();
     clock := T3 |}.

(** The stored state of the two pairs: both sides last seen at [T0]. *)
Definition opportunityMapping (src : SyncSource) : SyncMapping :=
  mapping "006P" "006R" T0 T0 src.

Definition leadMapping (src : SyncSource) : SyncMapping :=
  mapping "00QP" "00QR" T0 T0 src.

Definition sessionExpired : string :=
  "Failed to update opportunity in Raintree Salesforce: Salesforce API error: Session expired or invalid".

End Scenario.

Example parseISO_epoch : Scenario.parseISO "1970-01-01T00:00:00.000Z" = Some 0%Z.
Proof. reflexivity. Qed.

Example parseISO_2024 :
  Scenario.parseISO Scenario.T0 = Some 1704067200000%Z.
Proof. reflexivity. Qed.

(** ** Properties of the decision *)

Section Decision.

Context (env : Env).

Lemma js_gt_spec (a b : option Z) :
  js_gt a b = true ↔ ∃ x y : Z, a = Some x ∧ b = Some y ∧ (y < x)%Z.
Proof.
  unfold js_gt. destruct a as [x|], b as [y|]; split;
    try (intros [? [? [? [? ?]]]]); try discriminate.
  - intros H. apply Z.ltb_lt in H. by exists x, y.
  - simplify_eq. by apply Z.ltb_lt.
Qed.

Lemma js_gt_irrefl (a : option Z) : js_gt a a = false.
Proof. destruct a as [x|]; [apply Z.ltb_irrefl | done]. Qed.

(** The cascade only ever yields a propagate direction with [shouldSync], or
    [none] without it. *)
Lemma decideDirection_cases (mapping : SyncMapping) (po ro : option string) :
  decideDirection env mapping po ro = (partner_to_raintree, true)
  ∨ decideDirection env mapping po ro = (raintree_to_partner, true)
  ∨ decideDirection env mapping po ro = (none, false).
Proof.
  unfold decideDirection.
  repeat (case_match; simpl); auto.
Qed.

Lemma actionOf_decideDirection (mapping : SyncMapping) (po ro : option string) :
  match actionOf (decideDirection env mapping po ro) with
  | NoOp => decideDirection env mapping po ro = (none, false)
  | PropagatePartnerToRaintree =>
      decideDirection env mapping po ro = (partner_to_raintree, true)
  | PropagateRaintreeToPartner =>
      decideDirection env mapping po ro = (raintree_to_partner, true)
  end.
Proof.
  destruct (decideDirection_cases mapping po ro) as [H|[H|H]]; by rewrite H.
Qed.

(** C1: when both sides changed, the side with the strictly later
    modification time is propagated to the other one, and equal times resolve
    to Raintree-to-Partner. *)
Theorem conflict_resolved_by_recency (kind : RecordKind) (mapping : SyncMapping)
    (partnerRecord raintreeRecord : recordOf kind) :
  partnerHasNewChanges env mapping (modifiedDate kind partnerRecord) = true →
  raintreeHasNewChanges env mapping (modifiedDate kind raintreeRecord) = true →
  ∃ tp tr : Z,
    getTime env (modifiedDate kind partnerRecord) = Some tp
    ∧ getTime env (modifiedDate kind raintreeRecord) = Some tr
    ∧ ((tr < tp)%Z →
       decide env kind mapping partnerRecord raintreeRecord
       = PropagatePartnerToRaintree)
    ∧ ((tp < tr)%Z →
       decide env kind mapping partnerRecord raintreeRecord
       = PropagateRaintreeToPartner)
    ∧ (tp = tr →
       decide env kind mapping partnerRecord raintreeRecord
       = PropagateRaintreeToPartner).
Proof.
  intros Hp Hr. unfold decide, decideDirection. rewrite Hp, Hr. simpl.
  apply js_gt_spec in Hp as (tp & sp & Etp & _ & _).
  apply js_gt_spec in Hr as (tr & sr & Etr & _ & _).
  exists tp, tr. rewrite Etp, Etr. simpl.
  repeat split; intros H.
  - apply Z.ltb_lt in H. by rewrite H.
  - assert (E : (tr <? tp)%Z = false) by (apply Z.ltb_ge; lia). by rewrite E.
  - subst. by rewrite Z.ltb_irrefl.
Qed.

(** C2: a change on one side only is propagated to the other side, unless
    the last sync came from that other side, in which case nothing is done. *)
Theorem one_sided_change_guarded (kind : RecordKind) (mapping : SyncMapping)
    (partnerRecord raintreeRecord : recordOf kind) :
  (partnerHasNewChanges env mapping (modifiedDate kind partnerRecord) = true →
   raintreeHasNewChanges env mapping (modifiedDate kind raintreeRecord) = false →
   decide env kind mapping partnerRecord raintreeRecord
   = match lastSyncSource mapping with
     | raintree => NoOp
     | _ => PropagatePartnerToRaintree
     end)
  ∧ (partnerHasNewChanges env mapping (modifiedDate kind partnerRecord) = false →
     raintreeHasNewChanges env mapping (modifiedDate kind raintreeRecord) = true →
     decide env kind mapping partnerRecord raintreeRecord
     = match lastSyncSource mapping with
       | partner => NoOp
       | _ => PropagateRaintreeToPartner
       end).
Proof.
  split; intros Hp Hr; unfold decide, decideDirection; rewrite Hp, Hr; simpl;
    by destruct (lastSyncSource mapping).
Qed.

(** C6: a side has changed exactly when its observed time is strictly later
    than the stored one; records observed at the stored times give [NoOp],
    and so does a second decision taken on the mapping as the pass stores it
    after a first one, the records being the same. *)
Theorem change_detection_strict (kind : RecordKind) (mapping : SyncMapping)
    (partnerRecord raintreeRecord : recordOf kind) :
  (partnerHasNewChanges env mapping (modifiedDate kind partnerRecord) = true ↔
   ∃ observed stored : Z,
     getTime env (modifiedDate kind partnerRecord) = Some observed
     ∧ getTime env (partnerLastModified mapping) = Some stored
     ∧ (stored < observed)%Z)
  ∧ (raintreeHasNewChanges env mapping (modifiedDate kind raintreeRecord) = true ↔
     ∃ observed stored : Z,
       getTime env (modifiedDate kind raintreeRecord) = Some observed
       ∧ getTime env (raintreeLastModified mapping) = Some stored
       ∧ (stored < observed)%Z)
  ∧ (getTime env (modifiedDate kind partnerRecord)
       = getTime env (partnerLastModified mapping) →
     getTime env (modifiedDate kind raintreeRecord)
       = getTime env (raintreeLastModified mapping) →
     decide env kind mapping partnerRecord raintreeRecord = NoOp)
  ∧ (∀ syncResult : SyncResult,
       decide env kind
         (updatedMapping mapping (modifiedDate kind partnerRecord)
            (modifiedDate kind raintreeRecord) syncResult)
         partnerRecord raintreeRecord = NoOp).
Proof.
  split; [apply js_gt_spec|]. split; [apply js_gt_spec|]. split.
  - intros Ep Er. unfold decide, decideDirection, partnerHasNewChanges,
      raintreeHasNewChanges. rewrite Ep, Er, !js_gt_irrefl. done.
  - intros syncResult. unfold decide, decideDirection, partnerHasNewChanges,
      raintreeHasNewChanges. simpl. rewrite !js_gt_irrefl. done.
Qed.

End Decision.

(** ** Properties of the processing of one record *)

Section Records.

Context (env : Env).

(** What [syncOpportunityRecord] and [syncLeadRecord] do, in one equation: no
    call for [NoOp]; otherwise the one update call of the action, whose
    failure is caught and reported in the result. *)
Lemma syncRecord_run (kind : RecordKind) (partnerRecord raintreeRecord : recordOf kind)
    (mapping : SyncMapping) (partnerService : PartnerService env) (w : World env) :
  let action := decide env kind mapping partnerRecord raintreeRecord in
  syncRecord env kind partnerRecord raintreeRecord mapping partnerService w
  = match updateCall kind action mapping partnerRecord raintreeRecord with
    | None =>
        {| outcome := Returns (resultOf env kind mapping partnerRecord action
                                 (Returns ()) (Date_now env w).1);
           after := (Date_now env w).2;
           calls := [] |}
    | Some c =>
        let answer := performUpdate env partnerService c w in
        {| outcome := Returns (resultOf env kind mapping partnerRecord action
                                 answer.1 (Date_now env answer.2).1);
           after := (Date_now env answer.2).2;
           calls := [c] |}
    end.
Proof.
  intros action. subst action. unfold decide.
  destruct kind; cbn [modifiedDate syncRecord updateCall nameOf recordOf].
  - unfold syncOpportunityRecord.
    destruct (decideDirection_cases env mapping
                (opportunityModified partnerRecord)
                (opportunityModified raintreeRecord)) as [H|[H|H]];
      rewrite H; cbn [actionOf negb];
      unfold bind, try_catch, remote, now, ret, resultOf;
      cbn [outcome after calls directionOf nameOf fst snd app performUpdate updateCall].
    + destruct (Raintree_updateOpportunity env _ _ w) as [[[]|e] w1];
        cbn [outcome after calls fst snd app];
        destruct (Date_now env w1) as [ts w2]; reflexivity.
    + destruct (SalesforceService_updateOpportunity env _ _ _ w) as [[[]|e] w1];
        cbn [outcome after calls fst snd app];
        destruct (Date_now env w1) as [ts w2]; reflexivity.
    + destruct (Date_now env w) as [ts w2]; reflexivity.
  - unfold syncLeadRecord.
    destruct (decideDirection_cases env mapping
                (leadModified partnerRecord)
                (leadModified raintreeRecord)) as [H|[H|H]];
      rewrite H; cbn [actionOf negb];
      unfold bind, try_catch, remote, now, ret, resultOf;
      cbn [outcome after calls directionOf nameOf fst snd app performUpdate updateCall].
    + destruct (Raintree_updateLead env _ _ w) as [[[]|e] w1];
        cbn [outcome after calls fst snd app];
        destruct (Date_now env w1) as [ts w2]; reflexivity.
    + destruct (SalesforceService_updateLead env _ _ _ w) as [[[]|e] w1];
        cbn [outcome after calls fst snd app];
        destruct (Date_now env w1) as [ts w2]; reflexivity.
    + destruct (Date_now env w) as [ts w2]; reflexivity.
Qed.

End Records.

(** ** Properties of a pass *)

Section Pass.

Context (env : Env).

(** *** The monad and the loops *)

Lemma bind_returns {A B} (m : M env A) (f : A → M env B) (w : World env) (a : A) :
  outcome (m w) = Returns a →
  bind m f w
  = {| outcome := outcome (f a (after (m w)));
       after := after (f a (after (m w)));
       calls := calls (m w) ++ calls (f a (after (m w))) |}.
Proof. intros H. unfold bind. by rewrite H. Qed.

Lemma bind_throws {A B} (m : M env A) (f : A → M env B) (w : World env) (e : string) :
  outcome (m w) = Throws e →
  bind m f w = {| outcome := Throws e; after := after (m w); calls := calls (m w) |}.
Proof. intros H. unfold bind. by rewrite H. Qed.

Lemma forEach_cons {A S} (body : S → A → M env S) (x : A) (l : list A) (acc : S) :
  forEach body (x :: l) acc = bind (body acc x) (forEach body l).
Proof. reflexivity. Qed.

(** A loop whose body never throws never throws. *)
Lemma forEach_returns {A S} (body : S → A → M env S) (l : list A) :
  (∀ acc x w, ∃ acc', outcome (body acc x w) = Returns acc') →
  ∀ acc w, ∃ acc', outcome (forEach body l acc w) = Returns acc'.
Proof.
  intros Hbody. induction l as [|x l IH]; intros acc w.
  - by exists acc.
  - destruct (Hbody acc x w) as [acc1 H1].
    rewrite forEach_cons, (bind_returns _ _ _ _ H1). simpl. apply IH.
Qed.

(** A property of the accumulator kept by every iteration is kept by the
    loop. *)
Lemma forEach_invariant {A S} (body : S → A → M env S) (I : S → Prop) (l : list A) :
  (∀ acc x w acc', x ∈ l → I acc → outcome (body acc x w) = Returns acc' → I acc') →
  ∀ acc w acc', I acc → outcome (forEach body l acc w) = Returns acc' → I acc'.
Proof.
  induction l as [|x l IH]; intros Hbody acc w acc' HI Hrun.
  - simpl in Hrun. by simplify_eq.
  - rewrite forEach_cons in Hrun. unfold bind in Hrun.
    destruct (outcome (body acc x w)) as [acc1|e] eqn:H1; simpl in Hrun;
      [|discriminate].
    eapply IH; [| |exact Hrun].
    + intros ? y ? ? Hy. apply Hbody. by right.
    + eapply Hbody; [by left|exact HI|exact H1].
Qed.

(** An iteration that does nothing can be dropped from the loop. *)
Lemma forEach_skip {A S} (body : S → A → M env S) (l1 l2 : list A) (x : A) :
  (∀ acc, body acc x = ret acc) →
  ∀ acc w, forEach body (l1 ++ x :: l2) acc w = forEach body (l1 ++ l2) acc w.
Proof.
  intros Hskip. induction l1 as [|y l1 IH]; intros acc w.
  - simpl. rewrite Hskip. unfold bind, ret. simpl.
    by destruct (forEach body l2 acc w).
  - simpl. unfold bind. destruct (outcome (body acc y w)); [|done].
    by rewrite IH.
Qed.

(** *** The two loop bodies *)

Lemma fetchRaintreeRecord_run (kind : RecordKind)
    (raintreeMap : gmap string (recordOf kind)) (key : string)
    (mapping : SyncMapping) (w : World env) :
  fetchRaintreeRecord env kind raintreeMap (key, mapping) w
  = {| outcome :=
         Returns match (raintreeFetch env kind (raintreeId mapping) w).1 with
                 | Returns (Some record) => <[key := record]> raintreeMap
                 | _ => raintreeMap
                 end;
       after := (raintreeFetch env kind (raintreeId mapping) w).2;
       calls := [match kind with
                 | Opportunity => RaintreeGetOpportunity (raintreeId mapping)
                 | Lead => RaintreeGetLead (raintreeId mapping)
                 end] |}.
Proof.
  destruct kind; simpl;
    unfold fetchRaintreeOpportunity, fetchRaintreeLead, try_catch, bind, remote,
      ret; simpl;
    match goal with
    | |- context [let '(_, _) := ?x in _] => destruct x as [[[?|]|?] ?]
    end; reflexivity.
Qed.

Lemma processMapping_skipped (kind : RecordKind)
    (partnerMap raintreeMap : gmap string (recordOf kind))
    (partnerService : PartnerService env) (key : string) (mapping : SyncMapping) :
  partnerMap !! key = None ∨ raintreeMap !! key = None →
  ∀ acc, processMapping env kind partnerMap raintreeMap partnerService acc
           (key, mapping) = ret acc.
Proof.
  intros H [results updated].
  destruct kind; simpl in *; unfold processOpportunity, processLead;
    destruct (partnerMap !! key), (raintreeMap !! key), H; simpl;
    first [reflexivity | discriminate].
Qed.

Lemma processMapping_processed (kind : RecordKind)
    (partnerMap raintreeMap : gmap string (recordOf kind))
    (partnerService : PartnerService env) (key : string) (mapping : SyncMapping)
    (partnerRecord raintreeRecord : recordOf kind)
    (results : list SyncResult) (updated : gmap string SyncMapping)
    (w : World env) :
  partnerMap !! key = Some partnerRecord →
  raintreeMap !! key = Some raintreeRecord →
  ∃ syncResult,
    outcome (syncRecord env kind partnerRecord raintreeRecord mapping
               partnerService w) = Returns syncResult
    ∧ processMapping env kind partnerMap raintreeMap partnerService
        (results, updated) (key, mapping) w
      = {| outcome :=
             Returns ((results ++ [syncResult])%list,
                      <[key := updatedMapping mapping
                                 (modifiedDate kind partnerRecord)
                                 (modifiedDate kind raintreeRecord) syncResult]>
                        updated);
           after := after (syncRecord env kind partnerRecord raintreeRecord
                             mapping partnerService w);
           calls := calls (syncRecord env kind partnerRecord raintreeRecord
                             mapping partnerService w) |}.
Proof.
  intros Hp Hr.
  pose proof (syncRecord_run env kind partnerRecord raintreeRecord mapping
                partnerService w) as Hrun. simpl in Hrun.
  assert (∃ syncResult,
             outcome (syncRecord env kind partnerRecord raintreeRecord mapping
                        partnerService w) = Returns syncResult) as [res Hres].
  { rewrite Hrun. destruct (updateCall _ _ _ _ _); simpl; eauto. }
  exists res. split; [done|].
  destruct kind; simpl in *; unfold processOpportunity, processLead;
    rewrite Hp, Hr; rewrite (bind_returns _ _ _ _ Hres); simpl;
    by rewrite app_nil_r.
Qed.

Lemma processMapping_returns (kind : RecordKind)
    (partnerMap raintreeMap : gmap string (recordOf kind))
    (partnerService : PartnerService env) acc entry (w : World env) :
  ∃ acc', outcome (processMapping env kind partnerMap raintreeMap partnerService
                     acc entry w) = Returns acc'.
Proof.
  destruct acc as [results updated], entry as [key mapping].
  destruct (partnerMap !! key) as [p|] eqn:Hp;
    [destruct (raintreeMap !! key) as [r|] eqn:Hr|].
  - destruct (processMapping_processed kind _ _ partnerService key mapping p r
                results updated w Hp Hr) as (res & _ & ->). simpl. eauto.
  - rewrite processMapping_skipped by auto. simpl. eauto.
  - rewrite processMapping_skipped by auto. simpl. eauto.
Qed.

(** A pass is: log in, fetch the Partner records in bulk, fetch the Raintree
    record of every mapping, process every mapping; any error of the first
    two steps is thrown again. *)
Lemma syncPass_stages (kind : RecordKind) (partnerCredentials : SalesforceCredentials)
    (mappings : Mappings) :
  syncPass env kind partnerCredentials mappings
  = try_catch
      (let* partnerService :=
         remote (CreateWithCredentials partnerCredentials)
           (SalesforceService_createWithCredentials env partnerCredentials) in
       let* records := fetchAll env kind partnerService in
       let* raintreeMap := forEach (fetchRaintreeRecord env kind) mappings ∅ in
       forEach (processMapping env kind (byId kind records) raintreeMap
                  partnerService)
               mappings ([], list_to_map mappings))
      (λ message, throw message).
Proof. destruct kind; reflexivity. Qed.

Lemma bind_ret {A B} (a : A) (f : A → M env B) (w : World env) :
  bind (ret a) f w = f a w.
Proof. unfold bind, ret. simpl. by destruct (f a w). Qed.

(** *** The processing loop *)

Lemma processMappings_cons_skipped (kind : RecordKind)
    (partnerMap raintreeMap : gmap string (recordOf kind))
    (partnerService : PartnerService env) (key : string) (mapping : SyncMapping)
    (rest : Mappings) acc (w : World env) :
  partnerMap !! key = None ∨ raintreeMap !! key = None →
  processMappings env kind partnerMap raintreeMap partnerService
    ((key, mapping) :: rest) acc w
  = processMappings env kind partnerMap raintreeMap partnerService rest acc w.
Proof.
  intros H. unfold processMappings. rewrite forEach_cons.
  rewrite (processMapping_skipped kind _ _ partnerService key mapping H).
  apply bind_ret.
Qed.

Lemma processMappings_cons_processed (kind : RecordKind)
    (partnerMap raintreeMap : gmap string (recordOf kind))
    (partnerService : PartnerService env) (key : string) (mapping : SyncMapping)
    (rest : Mappings) (partnerRecord raintreeRecord : recordOf kind)
    (results : list SyncResult) (updated : gmap string SyncMapping)
    (w : World env) :
  partnerMap !! key = Some partnerRecord →
  raintreeMap !! key = Some raintreeRecord →
  let run := syncRecord env kind partnerRecord raintreeRecord mapping
               partnerService w in
  ∃ syncResult,
    outcome run = Returns syncResult
    ∧ let next :=
        processMappings env kind partnerMap raintreeMap partnerService rest
          ((results ++ [syncResult])%list,
           <[key := updatedMapping mapping (modifiedDate kind partnerRecord)
                      (modifiedDate kind raintreeRecord) syncResult]> updated)
          (after run) in
      processMappings env kind partnerMap raintreeMap partnerService
        ((key, mapping) :: rest) (results, updated) w
      = {| outcome := outcome next; after := after next;
           calls := calls run ++ calls next |}.
Proof.
  intros Hp Hr run.
  destruct (processMapping_processed kind _ _ partnerService key mapping _ _
              results updated w Hp Hr) as (res & Hres & Hbody).
  exists res. split; [done|]. simpl.
  unfold processMappings. rewrite forEach_cons. unfold bind.
  rewrite Hbody. reflexivity.
Qed.

(** The loop leaves alone the stored mapping of every key it does not
    process. *)
Lemma processMappings_frame (kind : RecordKind)
    (partnerMap raintreeMap : gmap string (recordOf kind))
    (partnerService : PartnerService env) (l : Mappings) (key : string) :
  (key ∈ l.*1 → partnerMap !! key = None ∨ raintreeMap !! key = None) →
  ∀ results updated w results' updated',
    outcome (processMappings env kind partnerMap raintreeMap partnerService l
               (results, updated) w) = Returns (results', updated') →
    updated' !! key = updated !! key.
Proof.
  induction l as [|[k m] l IH]; intros Hkey results updated w results' updated' Hrun.
  - simpl in Hrun. by simplify_eq.
  - destruct (partnerMap !! k) as [p|] eqn:Hp;
      [destruct (raintreeMap !! k) as [r|] eqn:Hr|].
    + destruct (processMappings_cons_processed kind _ _ partnerService k m l p r
                  results updated w Hp Hr) as (res & _ & Heq).
      simpl in Heq. rewrite Heq in Hrun. simpl in Hrun.
      apply IH in Hrun; [|intros Hin; apply Hkey; simpl; by right].
      rewrite Hrun. apply lookup_insert_ne. intros ->.
      destruct Hkey as [Hk|Hk]; [simpl; by left| |]; congruence.
    + rewrite processMappings_cons_skipped in Hrun by auto.
      eapply IH; [|exact Hrun]. intros Hin. apply Hkey. simpl. by right.
    + rewrite processMappings_cons_skipped in Hrun by auto.
      eapply IH; [|exact Hrun]. intros Hin. apply Hkey. simpl. by right.
Qed.

(** Every result the loop adds comes from one processed mapping, whose stored
    mapping is the one written together with that result. *)
Lemma processMappings_accounted (kind : RecordKind)
    (partnerMap raintreeMap : gmap string (recordOf kind))
    (partnerService : PartnerService env) (l : Mappings) :
  NoDup l.*1 →
  ∀ results updated w results' updated',
    outcome (processMappings env kind partnerMap raintreeMap partnerService l
               (results, updated) w) = Returns (results', updated') →
    ∃ new,
      results' = (results ++ new)%list
      ∧ length new = length (List.filter (processed partnerMap raintreeMap) l)
      ∧ Forall (accounted env kind partnerMap raintreeMap partnerService l
                  updated') new.
Proof.
  induction l as [|[k m] l IH]; intros Hnd results updated w results' updated' Hrun.
  - simpl in Hrun. simplify_eq. exists []. by rewrite app_nil_r.
  - simpl in Hnd. apply NoDup_cons in Hnd as [Hk Hnd].
    assert (Hweaken : ∀ new,
      Forall (accounted env kind partnerMap raintreeMap partnerService l
                updated') new →
      Forall (accounted env kind partnerMap raintreeMap partnerService
                ((k, m) :: l) updated') new).
    { intros new Hnew. eapply Forall_impl; [exact Hnew|].
      intros res (key & mp & p & r & w' & Hin & H).
      exists key, mp, p, r, w'. split; [by right|done]. }
    destruct (partnerMap !! k) as [p|] eqn:Hp;
      [destruct (raintreeMap !! k) as [r|] eqn:Hr|].
    + destruct (processMappings_cons_processed kind _ _ partnerService k m l p r
                  results updated w Hp Hr) as (res & Hres & Heq).
      simpl in Heq. rewrite Heq in Hrun. simpl in Hrun.
      pose proof (processMappings_frame kind _ _ partnerService l k
                    (λ Hin, False_ind _ (Hk Hin)) _ _ _ _ _ Hrun) as Hframe.
      rewrite lookup_insert_eq in Hframe.
      destruct (IH Hnd _ _ _ _ _ Hrun) as (new & -> & Hlen & Hall).
      exists (res :: new). split; [by rewrite <- app_assoc|]. split.
      * simpl. unfold processed at 1. simpl. rewrite Hp, Hr. simpl.
        by rewrite Hlen.
      * constructor; [|by apply Hweaken].
        exists k, m, p, r, w. repeat split; try done. by left.
    + rewrite processMappings_cons_skipped in Hrun by auto.
      destruct (IH Hnd _ _ _ _ _ Hrun) as (new & -> & Hlen & Hall).
      exists new. split; [done|]. split; [|by apply Hweaken].
      simpl. unfold processed at 1. simpl. rewrite Hp, Hr. done.
    + rewrite processMappings_cons_skipped in Hrun by auto.
      destruct (IH Hnd _ _ _ _ _ Hrun) as (new & -> & Hlen & Hall).
      exists new. split; [done|]. split; [|by apply Hweaken].
      simpl. unfold processed at 1. simpl. rewrite Hp. done.
Qed.

Lemma processMappings_returns (kind : RecordKind)
    (partnerMap raintreeMap : gmap string (recordOf kind))
    (partnerService : PartnerService env) (l : Mappings) acc (w : World env) :
  ∃ acc', outcome (processMappings env kind partnerMap raintreeMap
                     partnerService l acc w) = Returns acc'.
Proof.
  apply forEach_returns. intros. apply processMapping_returns.
Qed.

(** *** The fetching loop *)

Lemma fetchRaintreeRecord_returns (kind : RecordKind) acc entry (w : World env) :
  ∃ acc', outcome (fetchRaintreeRecord env kind acc entry w) = Returns acc'.
Proof.
  destruct entry as [key mapping]. rewrite fetchRaintreeRecord_run. simpl. eauto.
Qed.

Lemma fetchLoop_frame (kind : RecordKind) (l : Mappings) (key : string) :
  key ∉ l.*1 →
  ∀ (acc : gmap string (recordOf kind)) w raintreeMap,
    outcome (forEach (fetchRaintreeRecord env kind) l acc w) = Returns raintreeMap →
    raintreeMap !! key = acc !! key.
Proof.
  induction l as [|[k m] l IH]; intros Hkey acc w raintreeMap Hrun.
  - simpl in Hrun. by simplify_eq.
  - rewrite forEach_cons in Hrun. unfold bind in Hrun.
    rewrite fetchRaintreeRecord_run in Hrun. simpl in Hrun.
    apply not_elem_of_cons in Hkey as [Hne Hkey].
    apply (IH Hkey) in Hrun. rewrite Hrun.
    destruct (raintreeFetch env kind (raintreeId m) w).1 as [[record|]|];
      [by apply lookup_insert_ne|done..].
Qed.

Lemma fetchLoop_failed (kind : RecordKind) (key : string) (mapping : SyncMapping)
    (rest : Mappings) (acc : gmap string (recordOf kind)) (w : World env)
    (raintreeMap : gmap string (recordOf kind)) :
  key ∉ rest.*1 →
  acc !! key = None →
  (∀ record, (raintreeFetch env kind (raintreeId mapping) w).1
             ≠ Returns (Some record)) →
  outcome (forEach (fetchRaintreeRecord env kind) ((key, mapping) :: rest) acc w)
  = Returns raintreeMap →
  raintreeMap !! key = None.
Proof.
  intros Hkey Hacc Hfail Hrun.
  rewrite forEach_cons in Hrun. unfold bind in Hrun.
  rewrite fetchRaintreeRecord_run in Hrun. simpl in Hrun.
  apply (fetchLoop_frame kind rest key Hkey) in Hrun. rewrite Hrun.
  destruct (raintreeFetch env kind (raintreeId mapping) w).1 as [[record|]|];
    [by destruct (Hfail record)|done..].
Qed.

(** *** The whole pass *)

Lemma syncPass_throws (kind : RecordKind) (partnerCredentials : SalesforceCredentials)
    (mappings : Mappings) (w : World env) (e : string) :
  outcome (loginAndFetch env kind partnerCredentials w) = Throws e →
  outcome (syncPass env kind partnerCredentials mappings w) = Throws e.
Proof.
  rewrite syncPass_stages. unfold loginAndFetch, try_catch, bind, remote, throw.
  destruct (SalesforceService_createWithCredentials env partnerCredentials w)
    as [[svc|e'] w1]; simpl; [|congruence].
  destruct (outcome (fetchAll env kind svc w1)) as [records|e'']; simpl;
    [discriminate|congruence].
Qed.

Lemma syncPass_returns (kind : RecordKind) (partnerCredentials : SalesforceCredentials)
    (mappings : Mappings) (w : World env) (partnerService : PartnerService env)
    (partnerMap : gmap string (recordOf kind)) :
  outcome (loginAndFetch env kind partnerCredentials w)
  = Returns (partnerService, partnerMap) →
  let w2 := after (loginAndFetch env kind partnerCredentials w) in
  ∃ raintreeMap results updated,
    outcome (fetchRaintreeRecords env kind mappings w2) = Returns raintreeMap
    ∧ outcome (processMappings env kind partnerMap raintreeMap partnerService
                 mappings ([], list_to_map mappings)
                 (after (fetchRaintreeRecords env kind mappings w2)))
      = Returns (results, updated)
    ∧ outcome (syncPass env kind partnerCredentials mappings w)
      = Returns (results, updated).
Proof.
  rewrite syncPass_stages.
  unfold loginAndFetch, fetchRaintreeRecords, try_catch, bind, remote, throw.
  destruct (SalesforceService_createWithCredentials env partnerCredentials w)
    as [[svc|e'] w1]; simpl; [|discriminate].
  destruct (outcome (fetchAll env kind svc w1)) as [records|e''] eqn:Hall; simpl;
    [|discriminate].
  intros [= <- <-].
  destruct (forEach_returns (fetchRaintreeRecord env kind) mappings
              (fetchRaintreeRecord_returns kind) ∅
              (after (fetchAll env kind svc w1))) as [raintreeMap Hfetch].
  rewrite app_nil_r. rewrite Hfetch. simpl.
  destruct (processMappings_returns kind (byId kind records) raintreeMap svc
              mappings ([], list_to_map mappings)
              (after (forEach (fetchRaintreeRecord env kind) mappings ∅
                        (after (fetchAll env kind svc w1)))))
    as [[results updated] Hloop].
  exists raintreeMap, results, updated.
  unfold processMappings in Hloop. rewrite Hloop. simpl. done.
Qed.

Lemma syncPass_inv (kind : RecordKind) (partnerCredentials : SalesforceCredentials)
    (mappings : Mappings) (w : World env) results updated :
  outcome (syncPass env kind partnerCredentials mappings w)
  = Returns (results, updated) →
  ∃ partnerService partnerMap raintreeMap,
    outcome (loginAndFetch env kind partnerCredentials w)
    = Returns (partnerService, partnerMap)
    ∧ outcome (fetchRaintreeRecords env kind mappings
                 (after (loginAndFetch env kind partnerCredentials w)))
      = Returns raintreeMap
    ∧ outcome (processMappings env kind partnerMap raintreeMap partnerService
                 mappings ([], list_to_map mappings)
                 (after (fetchRaintreeRecords env kind mappings
                           (after (loginAndFetch env kind partnerCredentials w)))))
      = Returns (results, updated).
Proof.
  intros Hpass.
  destruct (outcome (loginAndFetch env kind partnerCredentials w))
    as [[svc partnerMap]|e] eqn:Hlogin.
  - destruct (syncPass_returns kind partnerCredentials mappings w svc partnerMap
                Hlogin) as (raintreeMap & results' & updated' & Hf & Hl & Hp).
    exists svc, partnerMap, raintreeMap. rewrite Hp in Hpass. by simplify_eq.
  - rewrite (syncPass_throws kind _ mappings w e Hlogin) in Hpass. discriminate.
Qed.

(** A property of every result returned for a processed mapping holds of
    every result the loop adds. *)
Lemma processMappings_results (kind : RecordKind)
    (partnerMap raintreeMap : gmap string (recordOf kind))
    (partnerService : PartnerService env) (l : Mappings)
    (P : SyncResult → Prop) :
  (∀ key mapping partnerRecord raintreeRecord w syncResult,
     (key, mapping) ∈ l →
     partnerMap !! key = Some partnerRecord →
     raintreeMap !! key = Some raintreeRecord →
     outcome (syncRecord env kind partnerRecord raintreeRecord mapping
                partnerService w) = Returns syncResult →
     P syncResult) →
  ∀ results updated w results' updated',
    Forall P results →
    outcome (processMappings env kind partnerMap raintreeMap partnerService l
               (results, updated) w) = Returns (results', updated') →
    Forall P results'.
Proof.
  intros HP results updated w results' updated' Hinit Hrun.
  apply (forEach_invariant
           (processMapping env kind partnerMap raintreeMap partnerService)
           (λ acc, Forall P acc.1) l) with (acc := (results, updated)) (w := w)
           (acc' := (results', updated')); [|done|done].
  clear Hinit Hrun.
  intros [rs up] [key mapping] w0 [rs' up'] Hin Hacc Hbody. simpl in *.
  destruct (partnerMap !! key) as [p|] eqn:Hp;
    [destruct (raintreeMap !! key) as [r|] eqn:Hr|].
  - destruct (processMapping_processed kind _ _ partnerService key mapping p r
                rs up w0 Hp Hr) as (res & Hres & Heq).
    rewrite Heq in Hbody. simpl in Hbody. simplify_eq.
    apply Forall_app. split; [done|]. constructor; [|done]. eauto.
  - rewrite processMapping_skipped in Hbody by auto. simpl in Hbody.
    by simplify_eq.
  - rewrite processMapping_skipped in Hbody by auto. simpl in Hbody.
    by simplify_eq.
Qed.

(** The loop only appends to the results. *)
Lemma processMappings_extends (kind : RecordKind)
    (partnerMap raintreeMap : gmap string (recordOf kind))
    (partnerService : PartnerService env) (l : Mappings)
    results updated (w : World env) results' updated' :
  outcome (processMappings env kind partnerMap raintreeMap partnerService l
             (results, updated) w) = Returns (results', updated') →
  ∃ later, results' = (results ++ later)%list.
Proof.
  intros Hrun.
  apply (forEach_invariant
           (processMapping env kind partnerMap raintreeMap partnerService)
           (λ acc, ∃ later, acc.1 = (results ++ later)%list) l)
    with (acc := (results, updated)) (w := w) (acc' := (results', updated'));
    [|exists []; by rewrite app_nil_r|done].
  intros [rs up] [key mapping] w0 [rs' up'] Hin [later Hacc] Hbody. simpl in *.
  destruct (partnerMap !! key) as [p|] eqn:Hp;
    [destruct (raintreeMap !! key) as [r|] eqn:Hr|].
  - destruct (processMapping_processed kind _ _ partnerService key mapping p r
                rs up w0 Hp Hr) as (res & Hres & Heq).
    rewrite Heq in Hbody. simpl in Hbody. simplify_eq.
    exists (later ++ [res])%list. by rewrite app_assoc.
  - rewrite processMapping_skipped in Hbody by auto. simpl in Hbody.
    simplify_eq. eauto.
  - rewrite processMapping_skipped in Hbody by auto. simpl in Hbody.
    simplify_eq. eauto.
Qed.

(** A processed mapping: its result is appended where the loop stands, and
    the mapping written with it is the one the loop returns under that key. *)
Lemma processMappings_at_processed (kind : RecordKind)
    (partnerMap raintreeMap : gmap string (recordOf kind))
    (partnerService : PartnerService env) (key : string) (mapping : SyncMapping)
    (rest : Mappings) (partnerRecord raintreeRecord : recordOf kind)
    (results : list SyncResult) (updated : gmap string SyncMapping)
    (w : World env) :
  partnerMap !! key = Some partnerRecord →
  raintreeMap !! key = Some raintreeRecord →
  key ∉ rest.*1 →
  ∃ syncResult later updated',
    outcome (syncRecord env kind partnerRecord raintreeRecord mapping
               partnerService w) = Returns syncResult
    ∧ outcome (processMappings env kind partnerMap raintreeMap partnerService
                 ((key, mapping) :: rest) (results, updated) w)
      = Returns ((results ++ syncResult :: later)%list, updated')
    ∧ updated' !! key
      = Some (updatedMapping mapping (modifiedDate kind partnerRecord)
                (modifiedDate kind raintreeRecord) syncResult).
Proof.
  intros Hp Hr Hkey.
  destruct (processMappings_cons_processed kind _ _ partnerService key mapping
              rest _ _ results updated w Hp Hr) as (res & Hres & Heq).
  simpl in Heq.
  match type of Heq with
  | _ = {| outcome := outcome ?next; after := _; calls := _ |} =>
      destruct (outcome next) as [[results' updated']|e] eqn:Hnext
  end.
  - destruct (processMappings_extends _ _ _ _ _ _ _ _ _ _ Hnext) as [later ->].
    exists res, later, updated'. split; [done|]. split.
    + rewrite Heq. simpl. by rewrite <- app_assoc.
    + rewrite (processMappings_frame kind _ _ partnerService rest key
                 (λ Hin, False_ind _ (Hkey Hin)) _ _ _ _ _ Hnext).
      apply lookup_insert_eq.
  - match type of Hnext with
    | outcome (processMappings _ _ ?pm ?rm ?svc ?l ?acc ?w') = _ =>
        destruct (processMappings_returns kind pm rm svc l acc w') as [? Hret]
    end.
    rewrite Hret in Hnext. discriminate.
Qed.

Lemma conflicts_none (results : list SyncResult) :
  Forall (λ syncResult, syncDirection syncResult ≠ conflict) results →
  conflicts (summarize results) = 0.
Proof.
  induction 1 as [|res results Hres _ IH]; [done|].
  simpl in *. rewrite bool_decide_eq_false_2 by done. exact IH.
Qed.

End Pass.

(** ** The engine, mapping by mapping *)

Section Claims.

Context (env : Env).

(** C8: for a processed mapping the engine issues exactly one update call,
    on the gateway of the side that lost, when the action is a propagate
    action, and no call at all when the action is [NoOp]. *)
Theorem update_called_once_or_never (kind : RecordKind)
    (partnerRecord raintreeRecord : recordOf kind) (mapping : SyncMapping)
    (partnerService : PartnerService env) (w : World env) :
  calls (syncRecord env kind partnerRecord raintreeRecord mapping
           partnerService w)
  = match updateCall kind
            (decide env kind mapping partnerRecord raintreeRecord)
            mapping partnerRecord raintreeRecord with
    | Some c => [c]
    | None => []
    end
  ∧ updateTarget <$> calls (syncRecord env kind partnerRecord raintreeRecord
                              mapping partnerService w)
    = match decide env kind mapping partnerRecord raintreeRecord with
      | NoOp => []
      | PropagatePartnerToRaintree => [Some (raintree, raintreeId mapping)]
      | PropagateRaintreeToPartner => [Some (partner, partnerId mapping)]
      end
  ∧ length (List.filter isUpdate
              (calls (syncRecord env kind partnerRecord raintreeRecord mapping
                        partnerService w)))
    = match decide env kind mapping partnerRecord raintreeRecord with
      | NoOp => 0
      | _ => 1
      end.
Proof.
  pose proof (syncRecord_run env kind partnerRecord raintreeRecord mapping
                partnerService w) as Hrun. simpl in Hrun. rewrite Hrun.
  destruct kind, (decide env _ mapping partnerRecord raintreeRecord); done.
Qed.

(** C10: the result reported for a processed mapping carries the
    [partnerId] of the mapping and a name computed from the Partner record
    alone, whatever the direction; so it is for every result of a pass. *)
Theorem result_identified_by_partner_side (kind : RecordKind) :
  (∀ (partnerRecord raintreeRecord : recordOf kind) (mapping : SyncMapping)
     (partnerService : PartnerService env) (w : World env),
     ∃ syncResult,
       outcome (syncRecord env kind partnerRecord raintreeRecord mapping
                  partnerService w) = Returns syncResult
       ∧ recordId syncResult = partnerId mapping
       ∧ recordName syncResult = nameOf env kind partnerRecord)
  ∧ (∀ (partnerCredentials : SalesforceCredentials) (mappings : Mappings)
       (w : World env) results updated,
       outcome (syncPass env kind partnerCredentials mappings w)
       = Returns (results, updated) →
       ∃ partnerService partnerMap,
         outcome (loginAndFetch env kind partnerCredentials w)
         = Returns (partnerService, partnerMap)
         ∧ Forall (λ syncResult,
             ∃ key mapping partnerRecord,
               (key, mapping) ∈ mappings
               ∧ partnerMap !! key = Some partnerRecord
               ∧ recordId syncResult = partnerId mapping
               ∧ recordName syncResult = nameOf env kind partnerRecord)
             results).
Proof.
  assert (Hrecord : ∀ (p r : recordOf kind) mapping svc (w : World env),
    ∃ syncResult,
      outcome (syncRecord env kind p r mapping svc w) = Returns syncResult
      ∧ recordId syncResult = partnerId mapping
      ∧ recordName syncResult = nameOf env kind p).
  { intros p r mapping svc w.
    pose proof (syncRecord_run env kind p r mapping svc w) as Hrun.
    simpl in Hrun. rewrite Hrun.
    destruct (updateCall kind _ mapping p r); simpl; eauto. }
  split; [exact Hrecord|].
  intros creds mappings w results updated Hpass.
  destruct (syncPass_inv env kind creds mappings w results updated Hpass)
    as (svc & partnerMap & raintreeMap & Hlogin & Hfetch & Hloop).
  exists svc, partnerMap. split; [done|].
  eapply (processMappings_results env kind partnerMap raintreeMap svc mappings);
    [|constructor|exact Hloop].
  intros key mapping p r w' res Hin Hp Hr Hres.
  destruct (Hrecord p r mapping svc w') as (res' & Hres' & Hid & Hname).
  rewrite Hres in Hres'. simplify_eq. eauto 10.
Qed.

(** C3, as the code has it: a pass returns its results and the updated
    mappings whenever the Partner login and the bulk fetch of the Partner
    records succeed, whatever the Raintree fetches and the updates do; an
    error of the login or of the bulk fetch is thrown again to the caller. *)
Theorem pass_returns_unless_partner_stage_throws (kind : RecordKind)
    (partnerCredentials : SalesforceCredentials) (mappings : Mappings)
    (w : World env) :
  match SalesforceService_createWithCredentials env partnerCredentials w with
  | (Throws e, _) =>
      outcome (syncPass env kind partnerCredentials mappings w) = Throws e
  | (Returns partnerService, w1) =>
      match outcome (fetchAll env kind partnerService w1) with
      | Throws e =>
          outcome (syncPass env kind partnerCredentials mappings w) = Throws e
      | Returns _ =>
          ∃ results updated,
            outcome (syncPass env kind partnerCredentials mappings w)
            = Returns (results, updated)
      end
  end.
Proof.
  destruct (SalesforceService_createWithCredentials env partnerCredentials w)
    as [[svc|e] w1] eqn:Hlogin.
  - destruct (outcome (fetchAll env kind svc w1)) as [records|e] eqn:Hall.
    + destruct (syncPass_returns env kind partnerCredentials mappings w svc
                  (byId kind records)) as (rm & results & updated & _ & _ & H).
      { unfold loginAndFetch, bind, remote. rewrite Hlogin. simpl.
        rewrite Hall. done. }
      eauto.
    + apply syncPass_throws. unfold loginAndFetch, bind, remote.
      rewrite Hlogin. simpl. by rewrite Hall.
  - apply syncPass_throws. unfold loginAndFetch, bind, remote.
    by rewrite Hlogin.
Qed.

(** C4, as the code has it: when the update call of a propagate action
    fails, the loop records a failed result that carries the error message and
    the attempted direction, and the mapping it stores is overwritten as after
    a success: the two timestamps become the observed ones and
    [lastSyncSource] the side that was being propagated. *)
Theorem failed_update_recorded_and_mapping_overwritten (kind : RecordKind)
    (partnerMap raintreeMap : gmap string (recordOf kind))
    (partnerService : PartnerService env) (key : string) (mapping : SyncMapping)
    (rest : Mappings) (partnerRecord raintreeRecord : recordOf kind)
    (results : list SyncResult) (updated : gmap string SyncMapping)
    (w : World env) (c : Call) (message : string) :
  partnerMap !! key = Some partnerRecord →
  raintreeMap !! key = Some raintreeRecord →
  key ∉ rest.*1 →
  updateCall kind (decide env kind mapping partnerRecord raintreeRecord)
    mapping partnerRecord raintreeRecord = Some c →
  (performUpdate env partnerService c w).1 = Throws message →
  ∃ failure later updated' stored,
    outcome (processMappings env kind partnerMap raintreeMap partnerService
               ((key, mapping) :: rest) (results, updated) w)
    = Returns ((results ++ failure :: later)%list, updated')
    ∧ recordId failure = partnerId mapping
    ∧ success failure = false
    ∧ error failure = Some message
    ∧ syncDirection failure
      = directionOf (decide env kind mapping partnerRecord raintreeRecord)
    ∧ updated' !! key = Some stored
    ∧ partnerId stored = partnerId mapping
    ∧ raintreeId stored = raintreeId mapping
    ∧ partnerLastModified stored = modifiedDate kind partnerRecord
    ∧ raintreeLastModified stored = modifiedDate kind raintreeRecord
    ∧ lastSyncSource stored
      = sourceAfter (decide env kind mapping partnerRecord raintreeRecord)
          mapping
    ∧ lastSyncTime stored = timestamp failure.
Proof.
  intros Hp Hr Hkey Hcall Hfail.
  destruct (processMappings_at_processed env kind _ _ partnerService key mapping
              rest _ _ results updated w Hp Hr Hkey)
    as (res & later & updated' & Hres & Hloop & Hstored).
  pose proof (syncRecord_run env kind partnerRecord raintreeRecord mapping
                partnerService w) as Hrun. simpl in Hrun.
  rewrite Hcall in Hrun. rewrite Hrun in Hres. simpl in Hres.
  rewrite Hfail in Hres. injection Hres as <-.
  destruct (decide env kind mapping partnerRecord raintreeRecord) eqn:Hd;
    [by destruct kind|..];
    (eexists _, later, updated', _; split; [exact Hloop|]);
    rewrite Hstored; repeat split.
Qed.

(** C7, as the code has it: when the decision is [NoOp], the loop records a
    successful result with direction [none], and the mapping it stores takes
    the observed modification dates as its two timestamps, its
    [lastSyncSource] and its ids being kept. *)
Theorem noop_reported_and_timestamps_refreshed (kind : RecordKind)
    (partnerMap raintreeMap : gmap string (recordOf kind))
    (partnerService : PartnerService env) (key : string) (mapping : SyncMapping)
    (rest : Mappings) (partnerRecord raintreeRecord : recordOf kind)
    (results : list SyncResult) (updated : gmap string SyncMapping)
    (w : World env) :
  partnerMap !! key = Some partnerRecord →
  raintreeMap !! key = Some raintreeRecord →
  key ∉ rest.*1 →
  decide env kind mapping partnerRecord raintreeRecord = NoOp →
  ∃ report later updated' stored,
    outcome (processMappings env kind partnerMap raintreeMap partnerService
               ((key, mapping) :: rest) (results, updated) w)
    = Returns ((results ++ report :: later)%list, updated')
    ∧ recordId report = partnerId mapping
    ∧ syncDirection report = none
    ∧ success report = true
    ∧ error report = None
    ∧ updated' !! key = Some stored
    ∧ partnerId stored = partnerId mapping
    ∧ raintreeId stored = raintreeId mapping
    ∧ partnerLastModified stored = modifiedDate kind partnerRecord
    ∧ raintreeLastModified stored = modifiedDate kind raintreeRecord
    ∧ lastSyncSource stored = lastSyncSource mapping
    ∧ lastSyncTime stored = timestamp report.
Proof.
  intros Hp Hr Hkey Hnoop.
  destruct (processMappings_at_processed env kind _ _ partnerService key mapping
              rest _ _ results updated w Hp Hr Hkey)
    as (res & later & updated' & Hres & Hloop & Hstored).
  pose proof (syncRecord_run env kind partnerRecord raintreeRecord mapping
                partnerService w) as Hrun. simpl in Hrun.
  rewrite Hnoop in Hrun.
  assert (Hnone : updateCall kind NoOp mapping partnerRecord raintreeRecord = None)
    by (by destruct kind).
  rewrite Hnone in Hrun. rewrite Hrun in Hres. simpl in Hres.
  injection Hres as <-.
  eexists _, later, updated', _. split; [exact Hloop|].
  rewrite Hstored. repeat split.
Qed.

(** C5, as the code has it: a mapping whose Raintree record cannot be
    fetched (the call throws or answers nothing) or whose Partner record is
    not in the snapshot is skipped: it is absent from the map of fetched
    records, the processing loop runs exactly as without it, a pass that
    returns has one result per processed mapping, and the mapping returned
    under its key is the input mapping.  An error of the Partner fetch is not
    an affair of one mapping: the bulk query failing, the pass throws that
    error to its caller and returns nothing. *)
Theorem unfetched_mapping_skipped (kind : RecordKind) :
  (∀ (key : string) (mapping : SyncMapping) (rest : Mappings)
     (acc raintreeMap : gmap string (recordOf kind)) (w : World env),
     key ∉ rest.*1 →
     acc !! key = None →
     (∀ record, (raintreeFetch env kind (raintreeId mapping) w).1
                ≠ Returns (Some record)) →
     outcome (forEach (fetchRaintreeRecord env kind) ((key, mapping) :: rest)
                acc w) = Returns raintreeMap →
     raintreeMap !! key = None)
  ∧ (∀ (partnerMap raintreeMap : gmap string (recordOf kind))
       (partnerService : PartnerService env) (before rest : Mappings)
       (key : string) (mapping : SyncMapping) acc (w : World env),
       partnerMap !! key = None ∨ raintreeMap !! key = None →
       processMappings env kind partnerMap raintreeMap partnerService
         (before ++ (key, mapping) :: rest)%list acc w
       = processMappings env kind partnerMap raintreeMap partnerService
           (before ++ rest)%list acc w)
  ∧ (∀ (partnerCredentials : SalesforceCredentials) (mappings : Mappings)
       (w : World env) results updated,
       NoDup mappings.*1 →
       outcome (syncPass env kind partnerCredentials mappings w)
       = Returns (results, updated) →
       ∃ partnerService partnerMap raintreeMap,
         outcome (loginAndFetch env kind partnerCredentials w)
         = Returns (partnerService, partnerMap)
         ∧ outcome (fetchRaintreeRecords env kind mappings
                      (after (loginAndFetch env kind partnerCredentials w)))
           = Returns raintreeMap
         ∧ length results
           = length (List.filter (processed partnerMap raintreeMap) mappings)
         ∧ ∀ key mapping,
             (key, mapping) ∈ mappings →
             partnerMap !! key = None ∨ raintreeMap !! key = None →
             updated !! key = Some mapping)
  ∧ (∀ (partnerCredentials : SalesforceCredentials) (mappings : Mappings)
       (w : World env) (partnerService : PartnerService env)
       (w1 : World env) (e : string),
       SalesforceService_createWithCredentials env partnerCredentials w
       = (Returns partnerService, w1) →
       outcome (fetchAll env kind partnerService w1) = Throws e →
       outcome (syncPass env kind partnerCredentials mappings w) = Throws e).
Proof.
  split; [|split; [|split]]; cycle 3.
  { intros creds mappings w svc w1 e Hlogin Hall.
    apply syncPass_throws. unfold loginAndFetch, bind, remote.
    rewrite Hlogin. simpl. by rewrite Hall. }
  - intros key mapping rest acc raintreeMap w. apply fetchLoop_failed.
  - intros partnerMap raintreeMap svc before rest key mapping acc w H.
    unfold processMappings. apply forEach_skip.
    by apply processMapping_skipped.
  - intros creds mappings w results updated Hnd Hpass.
    destruct (syncPass_inv env kind creds mappings w results updated Hpass)
      as (svc & partnerMap & raintreeMap & Hlogin & Hfetch & Hloop).
    exists svc, partnerMap, raintreeMap. split; [done|]. split; [done|]. split.
    + destruct (processMappings_accounted env kind _ _ svc mappings Hnd
                  _ _ _ _ _ Hloop) as (new & -> & Hlen & _). done.
    + intros key mapping Hin Hmissing.
      rewrite (processMappings_frame env kind _ _ svc mappings key
                 (λ _, Hmissing) _ _ _ _ _ Hloop).
      by apply elem_of_list_to_map_1.
Qed.

(** C9, as the code has it: a conflict is resolved at once into one of the
    two propagate actions and is stored as a sync from the winning side; the
    result reports the direction of the action taken, never [conflict], so
    the [conflicts] count of the summary is zero. *)
Theorem conflict_resolved_and_reported_as_direction :
  (∀ (kind : RecordKind) (mapping : SyncMapping)
     (partnerRecord raintreeRecord : recordOf kind),
     partnerHasNewChanges env mapping (modifiedDate kind partnerRecord) = true →
     raintreeHasNewChanges env mapping (modifiedDate kind raintreeRecord) = true →
     decide env kind mapping partnerRecord raintreeRecord
     = PropagatePartnerToRaintree
     ∨ decide env kind mapping partnerRecord raintreeRecord
       = PropagateRaintreeToPartner)
  ∧ (∀ (kind : RecordKind) (partnerRecord raintreeRecord : recordOf kind)
       (mapping : SyncMapping) (partnerService : PartnerService env)
       (w : World env) syncResult,
       outcome (syncRecord env kind partnerRecord raintreeRecord mapping
                  partnerService w) = Returns syncResult →
       syncDirection syncResult
       = directionOf (decide env kind mapping partnerRecord raintreeRecord)
       ∧ syncDirection syncResult ≠ conflict
       ∧ lastSyncSource
           (updatedMapping mapping (modifiedDate kind partnerRecord)
              (modifiedDate kind raintreeRecord) syncResult)
         = sourceAfter (decide env kind mapping partnerRecord raintreeRecord)
             mapping)
  ∧ (∀ (partnerCredentials : SalesforceCredentials)
       (opportunityMappings leadMappings : Mappings) (w1 w2 : World env)
       opportunityResults updatedOpportunities leadResults updatedLeads,
       outcome (syncOpportunities env partnerCredentials opportunityMappings w1)
       = Returns (opportunityResults, updatedOpportunities) →
       outcome (syncLeads env partnerCredentials leadMappings w2)
       = Returns (leadResults, updatedLeads) →
       Forall (λ syncResult, syncDirection syncResult ≠ conflict)
         (opportunityResults ++ leadResults)%list
       ∧ conflicts (summarize (opportunityResults ++ leadResults)%list) = 0).
Proof.
  assert (Hrecord : ∀ (kind : RecordKind) (p r : recordOf kind) mapping svc
                      (w : World env) res,
    outcome (syncRecord env kind p r mapping svc w) = Returns res →
    syncDirection res = directionOf (decide env kind mapping p r)).
  { intros kind p r mapping svc w res Hres.
    pose proof (syncRecord_run env kind p r mapping svc w) as Hrun.
    simpl in Hrun. rewrite Hrun in Hres.
    destruct (updateCall kind _ mapping p r); simpl in Hres;
      by injection Hres as <-. }
  assert (Hpass : ∀ kind creds mappings (w : World env) results updated,
    outcome (syncPass env kind creds mappings w) = Returns (results, updated) →
    Forall (λ res, syncDirection res ≠ conflict) results).
  { intros kind creds mappings w results updated Hrun.
    destruct (syncPass_inv env kind creds mappings w results updated Hrun)
      as (svc & partnerMap & raintreeMap & _ & _ & Hloop).
    eapply (processMappings_results env kind partnerMap raintreeMap svc mappings);
      [|constructor|exact Hloop].
    intros key mapping p r w' res _ _ _ Hres.
    rewrite (Hrecord _ _ _ _ _ _ _ Hres). by destruct (decide _ _ _ _ _). }
  split; [|split].
  - intros kind mapping p r Hp Hr. unfold decide, decideDirection.
    rewrite Hp, Hr. simpl. case_match; auto.
  - intros kind p r mapping svc w res Hres.
    pose proof (Hrecord _ _ _ _ _ _ _ Hres) as Hdir.
    unfold updatedMapping. simpl. rewrite Hdir.
    by destruct (decide _ _ _ _ _).
  - intros creds om lm w1 w2 ores uo lres ul Ho Hl.
    assert (Hall : Forall (λ res, syncDirection res ≠ conflict)
                     (ores ++ lres)%list).
    { apply Forall_app. split.
      - exact (Hpass Opportunity creds om w1 ores uo Ho).
      - exact (Hpass Lead creds lm w2 lres ul Hl). }
    split; [exact Hall|]. by apply conflicts_none.
Qed.

End Claims.

(** C3 does not hold as stated: when the Partner org refuses the
    credentials, both passes throw to their caller. *)
Lemma pass_throws_on_login_failure :
  outcome (syncOpportunities (Scenario.env Scenario.loginFails)
             Scenario.credentials
             [("006P", Scenario.opportunityMapping system)] 0%nat)
  = Throws "Salesforce authentication failed: Invalid username, password, or security token. Please verify your credentials."
  ∧ outcome (syncLeads (Scenario.env Scenario.loginFails)
               Scenario.credentials
               [("00QP", Scenario.leadMapping system)] 0%nat)
    = Throws "Salesforce authentication failed: Invalid username, password, or security token. Please verify your credentials.".
Proof. split; reflexivity. Qed.

(** C5 does not hold as stated for a Partner fetch error: the bulk query
    of the Partner org fails, and the mapping is not skipped in silence: both
    passes throw the error to their caller, after the login and the query
    alone, and return neither results nor mappings. *)
Lemma partner_fetch_error_aborts_pass :
  outcome (syncOpportunities (Scenario.env Scenario.bulkQueryFails)
             Scenario.credentials
             [("006P", Scenario.opportunityMapping system)] 0%nat)
  = Throws "Salesforce API error: Session expired or invalid"
  ∧ calls (syncOpportunities (Scenario.env Scenario.bulkQueryFails)
             Scenario.credentials
             [("006P", Scenario.opportunityMapping system)] 0%nat)
    = [CreateWithCredentials Scenario.credentials; PartnerGetOpportunities]
  ∧ outcome (syncLeads (Scenario.env Scenario.bulkQueryFails)
               Scenario.credentials
               [("00QP", Scenario.leadMapping system)] 0%nat)
    = Throws "Salesforce API error: Session expired or invalid"
  ∧ calls (syncLeads (Scenario.env Scenario.bulkQueryFails)
             Scenario.credentials
             [("00QP", Scenario.leadMapping system)] 0%nat)
    = [CreateWithCredentials Scenario.credentials; PartnerGetLeads].
Proof. repeat split; vm_compute; reflexivity. Qed.

(** C4 does not hold as stated: the Raintree update of a changed
    opportunity fails, the failure is reported, and the mapping returned is
    not the input one: its Partner timestamp has moved from [T0] to [T1] and
    its [lastSyncSource] from [system] to [partner]. *)
Lemma failed_update_changes_mapping :
  outcome (syncOpportunities
             (Scenario.env
                (Scenario.orgs Scenario.T1 Scenario.T0
                   (Throws Scenario.sessionExpired)))
             Scenario.credentials
             [("006P", Scenario.opportunityMapping system)] 0%nat)
  = Returns
      ([{| recordId := "006P"; recordName := "Big deal";
           syncDirection := partner_to_raintree; success := false;
           error := Some Scenario.sessionExpired;
           timestamp := Scenario.T3 |}],
       {[ "006P" :=
            {| partnerId := "006P"; raintreeId := "006R";
               partnerLastModified := Some Scenario.T1;
               raintreeLastModified := Some Scenario.T0;
               lastSyncSource := partner;
               lastSyncTime := Scenario.T3 |} ]})
  ∧ partnerLastModified (Scenario.opportunityMapping system) = Some Scenario.T0
  ∧ lastSyncSource (Scenario.opportunityMapping system) = system.
Proof. repeat split; vm_compute; reflexivity. Qed.

(** C7 does not hold as stated: the Partner record moved to [T1] after a
    sync that came from Raintree, so the decision is [NoOp]; the result says
    [none], and yet the Partner timestamp of the returned mapping has moved
    from [T0] to [T1]. *)
Lemma noop_moves_stored_timestamp :
  decide (Scenario.env (Scenario.orgs Scenario.T1 Scenario.T0 (Returns ())))
    Opportunity (Scenario.opportunityMapping raintree)
    (Scenario.partnerOpportunity Scenario.T1)
    (Scenario.raintreeOpportunity Scenario.T0) = NoOp
  ∧ outcome (syncOpportunities
               (Scenario.env
                  (Scenario.orgs Scenario.T1 Scenario.T0 (Returns ())))
               Scenario.credentials
               [("006P", Scenario.opportunityMapping raintree)] 0%nat)
    = Returns
        ([{| recordId := "006P"; recordName := "Big deal";
             syncDirection := none; success := true; error := None;
             timestamp := Scenario.T3 |}],
         {[ "006P" :=
              {| partnerId := "006P"; raintreeId := "006R";
                 partnerLastModified := Some Scenario.T1;
                 raintreeLastModified := Some Scenario.T0;
                 lastSyncSource := raintree;
                 lastSyncTime := Scenario.T3 |} ]})
  ∧ partnerLastModified (Scenario.opportunityMapping raintree)
    = Some Scenario.T0.
Proof. repeat split; vm_compute; reflexivity. Qed.

(** C9 does not hold as stated: both records changed, the Partner one
    last; the result reports [partner_to_raintree], not [conflict], and the
    summary counts no conflict. *)
Lemma conflict_not_reported_as_conflict :
  partnerHasNewChanges
    (Scenario.env (Scenario.orgs Scenario.T2 Scenario.T1 (Returns ())))
    (Scenario.opportunityMapping system)
    (opportunityModified (Scenario.partnerOpportunity Scenario.T2)) = true
  ∧ raintreeHasNewChanges
      (Scenario.env (Scenario.orgs Scenario.T2 Scenario.T1 (Returns ())))
      (Scenario.opportunityMapping system)
      (opportunityModified (Scenario.raintreeOpportunity Scenario.T1)) = true
  ∧ outcome (syncOpportunities
               (Scenario.env
                  (Scenario.orgs Scenario.T2 Scenario.T1 (Returns ())))
               Scenario.credentials
               [("006P", Scenario.opportunityMapping system)] 0%nat)
    = Returns
        ([{| recordId := "006P"; recordName := "Big deal";
             syncDirection := partner_to_raintree; success := true;
             error := None; timestamp := Scenario.T3 |}],
         {[ "006P" :=
              {| partnerId := "006P"; raintreeId := "006R";
                 partnerLastModified := Some Scenario.T2;
                 raintreeLastModified := Some Scenario.T1;
                 lastSyncSource := partner;
                 lastSyncTime := Scenario.T3 |} ]})
  ∧ conflicts
      (summarize
         [{| recordId := "006P"; recordName := "Big deal";
             syncDirection := partner_to_raintree; success := true;
             error := None; timestamp := Scenario.T3 |}]) = 0.
Proof. repeat split; vm_compute; reflexivity. Qed.

(** ** The theorems at work on the concrete environment *)

Lemma conflict_resolved_by_recency_witness :
  partnerHasNewChanges
    (Scenario.env (Scenario.orgs Scenario.T2 Scenario.T1 (Returns ())))
    (Scenario.leadMapping system)
    (modifiedDate Lead (Scenario.partnerLead Scenario.T2)) = true
  ∧ raintreeHasNewChanges
      (Scenario.env (Scenario.orgs Scenario.T2 Scenario.T1 (Returns ())))
      (Scenario.leadMapping system)
      (modifiedDate Lead (Scenario.raintreeLead Scenario.T1)) = true
  ∧ decide (Scenario.env (Scenario.orgs Scenario.T2 Scenario.T1 (Returns ())))
      Lead (Scenario.leadMapping system)
      (Scenario.partnerLead Scenario.T2) (Scenario.raintreeLead Scenario.T1)
    = PropagatePartnerToRaintree.
Proof.
  split; [reflexivity|]. split; [reflexivity|].
  destruct (conflict_resolved_by_recency
              (Scenario.env (Scenario.orgs Scenario.T2 Scenario.T1 (Returns ())))
              Lead (Scenario.leadMapping system)
              (Scenario.partnerLead Scenario.T2)
              (Scenario.raintreeLead Scenario.T1) eq_refl eq_refl)
    as (tp & tr & Htp & Htr & Hlater & _).
  apply Hlater. vm_compute in Htp, Htr.
  injection Htp as <-. injection Htr as <-. reflexivity.
Defined.

Lemma one_sided_change_guarded_witness :
  (partnerHasNewChanges
     (Scenario.env (Scenario.orgs Scenario.T1 Scenario.T0 (Returns ())))
     (Scenario.opportunityMapping raintree)
     (modifiedDate Opportunity (Scenario.partnerOpportunity Scenario.T1)) = true
   ∧ raintreeHasNewChanges
       (Scenario.env (Scenario.orgs Scenario.T1 Scenario.T0 (Returns ())))
       (Scenario.opportunityMapping raintree)
       (modifiedDate Opportunity (Scenario.raintreeOpportunity Scenario.T0))
     = false
   ∧ decide (Scenario.env (Scenario.orgs Scenario.T1 Scenario.T0 (Returns ())))
       Opportunity (Scenario.opportunityMapping raintree)
       (Scenario.partnerOpportunity Scenario.T1)
       (Scenario.raintreeOpportunity Scenario.T0) = NoOp)
  ∧ (partnerHasNewChanges
       (Scenario.env (Scenario.orgs Scenario.T0 Scenario.T1 (Returns ())))
       (Scenario.opportunityMapping system)
       (modifiedDate Opportunity (Scenario.partnerOpportunity Scenario.T0))
     = false
     ∧ raintreeHasNewChanges
         (Scenario.env (Scenario.orgs Scenario.T0 Scenario.T1 (Returns ())))
         (Scenario.opportunityMapping system)
         (modifiedDate Opportunity (Scenario.raintreeOpportunity Scenario.T1))
       = true
     ∧ decide (Scenario.env (Scenario.orgs Scenario.T0 Scenario.T1 (Returns ())))
         Opportunity (Scenario.opportunityMapping system)
         (Scenario.partnerOpportunity Scenario.T0)
         (Scenario.raintreeOpportunity Scenario.T1)
       = PropagateRaintreeToPartner).
Proof.
  split; (split; [reflexivity|]); (split; [reflexivity|]).
  - exact (proj1 (one_sided_change_guarded
                    (Scenario.env
                       (Scenario.orgs Scenario.T1 Scenario.T0 (Returns ())))
                    Opportunity (Scenario.opportunityMapping raintree)
                    (Scenario.partnerOpportunity Scenario.T1)
                    (Scenario.raintreeOpportunity Scenario.T0))
             eq_refl eq_refl).
  - exact (proj2 (one_sided_change_guarded
                    (Scenario.env
                       (Scenario.orgs Scenario.T0 Scenario.T1 (Returns ())))
                    Opportunity (Scenario.opportunityMapping system)
                    (Scenario.partnerOpportunity Scenario.T0)
                    (Scenario.raintreeOpportunity Scenario.T1))
             eq_refl eq_refl).
Defined.

Lemma change_detection_strict_witness :
  getTime (Scenario.env (Scenario.orgs Scenario.T0 Scenario.T0 (Returns ())))
    (modifiedDate Opportunity (Scenario.partnerOpportunity Scenario.T0))
  = getTime (Scenario.env (Scenario.orgs Scenario.T0 Scenario.T0 (Returns ())))
      (partnerLastModified (Scenario.opportunityMapping partner))
  ∧ getTime (Scenario.env (Scenario.orgs Scenario.T0 Scenario.T0 (Returns ())))
      (modifiedDate Opportunity (Scenario.raintreeOpportunity Scenario.T0))
    = getTime (Scenario.env (Scenario.orgs Scenario.T0 Scenario.T0 (Returns ())))
        (raintreeLastModified (Scenario.opportunityMapping partner))
  ∧ decide (Scenario.env (Scenario.orgs Scenario.T0 Scenario.T0 (Returns ())))
      Opportunity (Scenario.opportunityMapping partner)
      (Scenario.partnerOpportunity Scenario.T0)
      (Scenario.raintreeOpportunity Scenario.T0) = NoOp.
Proof.
  split; [reflexivity|]. split; [reflexivity|].
  exact (proj1 (proj2 (proj2 (change_detection_strict
           (Scenario.env (Scenario.orgs Scenario.T0 Scenario.T0 (Returns ())))
           Opportunity (Scenario.opportunityMapping partner)
           (Scenario.partnerOpportunity Scenario.T0)
           (Scenario.raintreeOpportunity Scenario.T0)))) eq_refl eq_refl).
Defined.

Lemma failed_update_recorded_and_mapping_overwritten_witness :
  ({[ "006P" := Scenario.partnerOpportunity Scenario.T1 ]}
     : gmap string SalesforceOpportunity) !! "006P"
  = Some (Scenario.partnerOpportunity Scenario.T1)
  ∧ ({[ "006P" := Scenario.raintreeOpportunity Scenario.T0 ]}
       : gmap string SalesforceOpportunity) !! "006P"
    = Some (Scenario.raintreeOpportunity Scenario.T0)
  ∧ ("006P" ∉ ([] : Mappings).*1)
  ∧ (performUpdate
       (Scenario.env
          (Scenario.orgs Scenario.T1 Scenario.T0
             (Throws Scenario.sessionExpired))) ()
       (RaintreeUpdateOpportunity "006R"
          (opportunityData (Scenario.partnerOpportunity Scenario.T1)))
       0%nat).1 = Throws Scenario.sessionExpired
  ∧ ∃ failure later updated' stored,
      outcome (processMappings
                 (Scenario.env
                    (Scenario.orgs Scenario.T1 Scenario.T0
                       (Throws Scenario.sessionExpired)))
                 Opportunity
                 {[ "006P" := Scenario.partnerOpportunity Scenario.T1 ]}
                 {[ "006P" := Scenario.raintreeOpportunity Scenario.T0 ]}
                 () [("006P", Scenario.opportunityMapping system)]
                 ([], ∅) 0%nat)
      = Returns (([] ++ failure :: later)%list, updated')
      ∧ success failure = false
      ∧ error failure = Some Scenario.sessionExpired
      ∧ updated' !! "006P" = Some stored
      ∧ partnerLastModified stored = Some Scenario.T1
      ∧ lastSyncSource stored = partner.
Proof.
  split; [reflexivity|]. split; [reflexivity|].
  split; [apply not_elem_of_nil|]. split; [reflexivity|].
  destruct (failed_update_recorded_and_mapping_overwritten
              (Scenario.env
                 (Scenario.orgs Scenario.T1 Scenario.T0
                    (Throws Scenario.sessionExpired)))
              Opportunity
              {[ "006P" := Scenario.partnerOpportunity Scenario.T1 ]}
              {[ "006P" := Scenario.raintreeOpportunity Scenario.T0 ]}
              () "006P" (Scenario.opportunityMapping system) []
              (Scenario.partnerOpportunity Scenario.T1)
              (Scenario.raintreeOpportunity Scenario.T0) [] ∅ 0%nat
              (RaintreeUpdateOpportunity "006R"
                 (opportunityData (Scenario.partnerOpportunity Scenario.T1)))
              Scenario.sessionExpired)
    as (failure & later & updated' & stored & Hrun & _ & Hs & He & _ & Hst
        & _ & _ & Hpm & _ & Hsrc & _);
    [reflexivity|reflexivity|apply not_elem_of_nil|reflexivity|reflexivity|].
  exists failure, later, updated', stored. repeat split; assumption.
Defined.

Lemma noop_reported_and_timestamps_refreshed_witness :
  ({[ "00QP" := Scenario.partnerLead Scenario.T1 ]}
     : gmap string SalesforceLead) !! "00QP"
  = Some (Scenario.partnerLead Scenario.T1)
  ∧ ({[ "00QP" := Scenario.raintreeLead Scenario.T0 ]}
       : gmap string SalesforceLead) !! "00QP"
    = Some (Scenario.raintreeLead Scenario.T0)
  ∧ ("00QP" ∉ ([] : Mappings).*1)
  ∧ decide (Scenario.env (Scenario.orgs Scenario.T1 Scenario.T0 (Returns ())))
      Lead (Scenario.leadMapping raintree)
      (Scenario.partnerLead Scenario.T1) (Scenario.raintreeLead Scenario.T0)
    = NoOp
  ∧ ∃ report later updated' stored,
      outcome (processMappings
                 (Scenario.env
                    (Scenario.orgs Scenario.T1 Scenario.T0 (Returns ())))
                 Lead
                 {[ "00QP" := Scenario.partnerLead Scenario.T1 ]}
                 {[ "00QP" := Scenario.raintreeLead Scenario.T0 ]}
                 () [("00QP", Scenario.leadMapping raintree)]
                 ([], ∅) 0%nat)
      = Returns (([] ++ report :: later)%list, updated')
      ∧ syncDirection report = none
      ∧ success report = true
      ∧ updated' !! "00QP" = Some stored
      ∧ partnerLastModified stored = Some Scenario.T1
      ∧ lastSyncSource stored = raintree.
Proof.
  split; [reflexivity|]. split; [reflexivity|].
  split; [apply not_elem_of_nil|]. split; [reflexivity|].
  destruct (noop_reported_and_timestamps_refreshed
              (Scenario.env (Scenario.orgs Scenario.T1 Scenario.T0 (Returns ())))
              Lead
              {[ "00QP" := Scenario.partnerLead Scenario.T1 ]}
              {[ "00QP" := Scenario.raintreeLead Scenario.T0 ]}
              () "00QP" (Scenario.leadMapping raintree) []
              (Scenario.partnerLead Scenario.T1)
              (Scenario.raintreeLead Scenario.T0) [] ∅ 0%nat)
    as (report & later & updated' & stored & Hrun & _ & Hd & Hs & _ & Hst
        & _ & _ & Hpm & _ & Hsrc & _);
    [reflexivity|reflexivity|apply not_elem_of_nil|reflexivity|].
  exists report, later, updated', stored. repeat split; assumption.
Defined.

Lemma unfetched_mapping_skipped_witness :
  NoDup [("006P", Scenario.mapping "006P" "006X" Scenario.T0 Scenario.T0 system)].*1
  ∧ outcome (syncPass
               (Scenario.env (Scenario.orgs Scenario.T1 Scenario.T0 (Returns ())))
               Opportunity Scenario.credentials
               [("006P", Scenario.mapping "006P" "006X" Scenario.T0 Scenario.T0
                           system)] 0%nat)
    = Returns
        ([], {[ "006P" := Scenario.mapping "006P" "006X" Scenario.T0
                            Scenario.T0 system ]})
  ∧ (∀ record,
       (raintreeFetch
          (Scenario.env (Scenario.orgs Scenario.T1 Scenario.T0 (Returns ())))
          Opportunity "006X" 2%nat).1 ≠ Returns (Some record))
  ∧ ({[ "006P" := Scenario.mapping "006P" "006X" Scenario.T0 Scenario.T0
                    system ]} : gmap string SyncMapping) !! "006P"
    = Some (Scenario.mapping "006P" "006X" Scenario.T0 Scenario.T0 system)
  ∧ length ([] : list SyncResult) = 0
  ∧ outcome (fetchAll (Scenario.env Scenario.bulkQueryFails) Lead () 1%nat)
    = Throws "Salesforce API error: Session expired or invalid"
  ∧ outcome (syncPass (Scenario.env Scenario.bulkQueryFails) Lead
               Scenario.credentials
               [("00QP", Scenario.leadMapping system)] 0%nat)
    = Throws "Salesforce API error: Session expired or invalid".
Proof.
  assert (Hnd : NoDup [("006P", Scenario.mapping "006P" "006X" Scenario.T0
                                   Scenario.T0 system)].*1).
  { apply NoDup_singleton. }
  assert (Hfetch : ∀ record,
             (raintreeFetch
                (Scenario.env
                   (Scenario.orgs Scenario.T1 Scenario.T0 (Returns ())))
                Opportunity "006X" 2%nat).1 ≠ Returns (Some record)).
  { intros record. vm_compute. discriminate. }
  split; [exact Hnd|]. split; [reflexivity|]. split; [exact Hfetch|].
  destruct (unfetched_mapping_skipped
              (Scenario.env (Scenario.orgs Scenario.T1 Scenario.T0 (Returns ())))
              Opportunity) as (Hstage & _ & Hpass & _).
  destruct (Hpass Scenario.credentials
              [("006P", Scenario.mapping "006P" "006X" Scenario.T0 Scenario.T0
                          system)] 0%nat []
              {[ "006P" := Scenario.mapping "006P" "006X" Scenario.T0
                             Scenario.T0 system ]} Hnd eq_refl)
    as (svc & partnerMap & raintreeMap & _ & Hrm & Hlen & Hkept).
  split.
  { apply Hkept; [apply list_elem_of_singleton; reflexivity|].
    right.
    apply (Hstage "006P"
             (Scenario.mapping "006P" "006X" Scenario.T0 Scenario.T0 system)
             [] ∅ raintreeMap 2%nat);
      [apply not_elem_of_nil|reflexivity|exact Hfetch|exact Hrm]. }
  split; [done|]. split; [reflexivity|].
  apply (proj2 (proj2 (proj2 (unfetched_mapping_skipped
                                (Scenario.env Scenario.bulkQueryFails) Lead)))
           Scenario.credentials [("00QP", Scenario.leadMapping system)]
           0%nat () 1%nat
           "Salesforce API error: Session expired or invalid");
    reflexivity.
Defined.

Lemma conflict_resolved_and_reported_as_direction_witness :
  partnerHasNewChanges
    (Scenario.env (Scenario.orgs Scenario.T1 Scenario.T2 (Returns ())))
    (Scenario.opportunityMapping system)
    (modifiedDate Opportunity (Scenario.partnerOpportunity Scenario.T1)) = true
  ∧ raintreeHasNewChanges
      (Scenario.env (Scenario.orgs Scenario.T1 Scenario.T2 (Returns ())))
      (Scenario.opportunityMapping system)
      (modifiedDate Opportunity (Scenario.raintreeOpportunity Scenario.T2))
    = true
  ∧ (decide (Scenario.env (Scenario.orgs Scenario.T1 Scenario.T2 (Returns ())))
       Opportunity (Scenario.opportunityMapping system)
       (Scenario.partnerOpportunity Scenario.T1)
       (Scenario.raintreeOpportunity Scenario.T2)
     = PropagatePartnerToRaintree
     ∨ decide
         (Scenario.env (Scenario.orgs Scenario.T1 Scenario.T2 (Returns ())))
         Opportunity (Scenario.opportunityMapping system)
         (Scenario.partnerOpportunity Scenario.T1)
         (Scenario.raintreeOpportunity Scenario.T2)
       = PropagateRaintreeToPartner)
  ∧ conflicts
      (summarize
         ([{| recordId := "006P"; recordName := "Big deal";
              syncDirection := raintree_to_partner; success := true;
              error := None; timestamp := Scenario.T3 |}]
          ++ [{| recordId := "00QP"; recordName := "Ada Lovelace";
                 syncDirection := raintree_to_partner; success := true;
                 error := None; timestamp := Scenario.T3 |}])%list) = 0.
Proof.
  destruct (conflict_resolved_and_reported_as_direction
              (Scenario.env (Scenario.orgs Scenario.T1 Scenario.T2 (Returns ()))))
    as (Hresolved & _ & Hroute).
  split; [reflexivity|]. split; [reflexivity|]. split.
  - apply Hresolved; reflexivity.
  - refine (proj2 (Hroute Scenario.credentials
                     [("006P", Scenario.opportunityMapping system)]
                     [("00QP", Scenario.leadMapping system)] 0%nat 0%nat
                     _ {[ "006P" := _ ]} _ {[ "00QP" := _ ]} _ _));
      vm_compute; reflexivity.
Defined.

Lemma result_identified_by_partner_side_witness :
  outcome (syncPass
             (Scenario.env (Scenario.orgs Scenario.T0 Scenario.T1 (Returns ())))
             Lead Scenario.credentials
             [("00QP", Scenario.leadMapping system)] 0%nat)
  = Returns
      ([{| recordId := "00QP"; recordName := "Ada Lovelace";
           syncDirection := raintree_to_partner; success := true;
           error := None; timestamp := Scenario.T3 |}],
       {[ "00QP" :=
            {| partnerId := "00QP"; raintreeId := "00QR";
               partnerLastModified := Some Scenario.T0;
               raintreeLastModified := Some Scenario.T1;
               lastSyncSource := raintree;
               lastSyncTime := Scenario.T3 |} ]})
  ∧ ∃ partnerMap : gmap string SalesforceLead,
      Forall (λ syncResult,
          ∃ key mapping (partnerRecord : SalesforceLead),
            (key, mapping) ∈ [("00QP", Scenario.leadMapping system)]
            ∧ partnerMap !! key = Some partnerRecord
            ∧ recordId syncResult = partnerId mapping
            ∧ recordName syncResult
              = nameOf
                  (Scenario.env
                     (Scenario.orgs Scenario.T0 Scenario.T1 (Returns ())))
                  Lead partnerRecord)
        [{| recordId := "00QP"; recordName := "Ada Lovelace";
            syncDirection := raintree_to_partner; success := true;
            error := None; timestamp := Scenario.T3 |}].
Proof.
  split; [vm_compute; reflexivity|].
  edestruct (proj2 (result_identified_by_partner_side
                      (Scenario.env
                         (Scenario.orgs Scenario.T0 Scenario.T1 (Returns ())))
                      Lead)
               Scenario.credentials [("00QP", Scenario.leadMapping system)]
               0%nat)
    as (svc & partnerMap & _ & Hall); [vm_compute; reflexivity|].
  exists partnerMap. exact Hall.
Defined.

(** ** More on a pass: calls, order, keys *)

Section Accounting.

Context (env : Env).

Lemma fetchLoop_calls (kind : RecordKind) (l : Mappings)
    (acc : gmap string (recordOf kind)) (w : World env) :
  calls (forEach (fetchRaintreeRecord env kind) l acc w) = fetchCall kind <$> l.
Proof.
  revert acc w. induction l as [|[k m] l IH]; intros acc w; [done|].
  rewrite forEach_cons. unfold bind.
  rewrite fetchRaintreeRecord_run. simpl. rewrite IH.
  by destruct kind.
Qed.

(** The result of one record tells the calls that were made for it. *)
Lemma syncRecord_calls (kind : RecordKind) (p r : recordOf kind)
    (mapping : SyncMapping) (svc : PartnerService env) (w : World env)
    (res : SyncResult) :
  outcome (syncRecord env kind p r mapping svc w) = Returns res →
  Forall (λ c, isUpdate c = true) (calls (syncRecord env kind p r mapping svc w))
  ∧ length (calls (syncRecord env kind p r mapping svc w))
    = (if propagated res then 1 else 0)
  ∧ (success res = true ↔ error res = None)
  ∧ (success res = false → propagated res = true).
Proof.
  pose proof (syncRecord_run env kind p r mapping svc w) as Hrun.
  simpl in Hrun. rewrite Hrun. clear Hrun.
  destruct kind, (decide env _ mapping p r); simpl; intros [= <-]; simpl;
    repeat split; try done; try (repeat constructor);
    try (destruct (_ : Outcome unit * _) as [[[]|?] ?]; simpl; done);
    destruct (_.1); simpl; done.
Qed.

Lemma processMappings_calls (kind : RecordKind)
    (partnerMap raintreeMap : gmap string (recordOf kind))
    (svc : PartnerService env) (l : Mappings) :
  ∀ results updated w results' updated',
    outcome (processMappings env kind partnerMap raintreeMap svc l
               (results, updated) w) = Returns (results', updated') →
    ∃ new,
      results' = (results ++ new)%list
      ∧ Forall (λ c, isUpdate c = true)
          (calls (processMappings env kind partnerMap raintreeMap svc l
                    (results, updated) w))
      ∧ length (calls (processMappings env kind partnerMap raintreeMap svc l
                         (results, updated) w))
        = length (List.filter propagated new).
Proof.
  induction l as [|[k m] l IH]; intros results updated w results' updated' Hrun.
  - simpl in Hrun. simplify_eq. exists []. rewrite app_nil_r. by repeat split.
  - destruct (partnerMap !! k) as [p|] eqn:Hp;
      [destruct (raintreeMap !! k) as [r|] eqn:Hr|].
    + destruct (processMappings_cons_processed env kind _ _ svc k m l p r
                  results updated w Hp Hr) as (res & Hres & Heq).
      simpl in Heq. rewrite Heq in Hrun |- *. simpl in Hrun |- *.
      destruct (IH _ _ _ _ _ Hrun) as (new & -> & Hupd & Hlen).
      destruct (syncRecord_calls kind p r m svc w res Hres)
        as (Hupd1 & Hlen1 & _).
      exists (res :: new). split; [by rewrite <- app_assoc|]. split.
      * by apply Forall_app.
      * rewrite length_app, Hlen1, Hlen. simpl.
        by destruct (propagated res).
    + rewrite processMappings_cons_skipped in Hrun |- * by auto.
      exact (IH _ _ _ _ _ Hrun).
    + rewrite processMappings_cons_skipped in Hrun |- * by auto.
      exact (IH _ _ _ _ _ Hrun).
Qed.

(** The calls of a pass that gets through the Partner stage. *)
Lemma syncPass_calls (kind : RecordKind) (creds : SalesforceCredentials)
    (mappings : Mappings) (w : World env) (svc : PartnerService env)
    (partnerMap raintreeMap : gmap string (recordOf kind)) :
  outcome (loginAndFetch env kind creds w) = Returns (svc, partnerMap) →
  outcome (fetchRaintreeRecords env kind mappings
             (after (loginAndFetch env kind creds w))) = Returns raintreeMap →
  calls (syncPass env kind creds mappings w)
  = ((CreateWithCredentials creds :: fetchAllCall kind
      :: (fetchCall kind <$> mappings))
     ++ calls (processMappings env kind partnerMap raintreeMap svc mappings
                 ([], list_to_map mappings)
                 (after (fetchRaintreeRecords env kind mappings
                           (after (loginAndFetch env kind creds w))))))%list.
Proof.
  rewrite syncPass_stages.
  unfold loginAndFetch, fetchRaintreeRecords, try_catch, bind, remote, throw.
  destruct (SalesforceService_createWithCredentials env creds w)
    as [[svc'|e'] w1]; simpl; [|discriminate].
  assert (Hcall : calls (fetchAll env kind svc' w1) = [fetchAllCall kind]).
  { destruct kind; simpl; unfold remote;
      match goal with
      | |- context [let '(_, _) := ?x in _] => by destruct x
      end. }
  destruct (outcome (fetchAll env kind svc' w1)) as [records|e''] eqn:Hall;
    simpl; [|discriminate].
  intros [= <- <-]. rewrite app_nil_r. intros Hfetch. rewrite Hfetch. simpl.
  destruct (processMappings_returns env kind (byId kind records) raintreeMap
              svc' mappings ([], list_to_map mappings)
              (after (forEach (fetchRaintreeRecord env kind) mappings ∅
                        (after (fetchAll env kind svc' w1)))))
    as [acc Hloop].
  unfold processMappings in *. rewrite Hloop. simpl.
  rewrite Hcall, fetchLoop_calls. done.
Qed.

(** Among the results of a loop, a failure is always that of an attempted
    propagation, and a result has an error message exactly when it failed. *)
Lemma processMappings_wellformed (kind : RecordKind)
    (partnerMap raintreeMap : gmap string (recordOf kind))
    (svc : PartnerService env) (l : Mappings)
    results updated (w : World env) results' updated' :
  outcome (processMappings env kind partnerMap raintreeMap svc l
             (results, updated) w) = Returns (results', updated') →
  Forall (λ res, (success res = true ↔ error res = None)
                 ∧ (success res = false → propagated res = true)) results →
  Forall (λ res, (success res = true ↔ error res = None)
                 ∧ (success res = false → propagated res = true)) results'.
Proof.
  intros Hrun Hinit.
  eapply (processMappings_results env kind partnerMap raintreeMap svc l);
    [|exact Hinit|exact Hrun].
  intros key mapping p r w' res _ _ _ Hres.
  destruct (syncRecord_calls kind p r mapping svc w' res Hres)
    as (_ & _ & H1 & H2). done.
Qed.

Lemma propagated_count (results : list SyncResult) :
  Forall (λ res, success res = false → propagated res = true) results →
  length (List.filter propagated results)
  = synced (summarize results) + failed (summarize results).
Proof.
  induction 1 as [|res results Hres _ IH]; [done|].
  simpl in *. unfold propagated in *.
  destruct (success res), (bool_decide (syncDirection res ≠ none)) eqn:Hd;
    simpl; first [lia | by specialize (Hres eq_refl)].
Qed.

End Accounting.

Section PassExtras.

Context (env : Env).

Lemma byId_snoc (kind : RecordKind) (records : list (recordOf kind))
    (p : recordOf kind) :
  byId kind (records ++ [p]) = <[recordIdOf kind p := p]> (byId kind records).
Proof.
  destruct kind; simpl; unfold opportunitiesById, leadsById;
    by rewrite foldl_app.
Qed.

Lemma byId_nil (kind : RecordKind) : byId kind [] = ∅.
Proof. by destruct kind. Qed.

(** The index of the Partner snapshot: a key is found exactly when it is the
    id of a record of the snapshot; the record found has that id, and a later
    record replaces an earlier one with the same id. *)
Theorem snapshot_lookup (kind : RecordKind) (records : list (recordOf kind))
    (key : string) :
  (byId kind records !! key = None ↔ key ∉ recordIdOf kind <$> records)
  ∧ (∀ p, byId kind records !! key = Some p →
          p ∈ records ∧ recordIdOf kind p = key)
  ∧ (∀ p, byId kind (records ++ [p]) !! recordIdOf kind p = Some p).
Proof.
  split; [|split].
  - induction records as [|p records IH] using rev_ind.
    + rewrite byId_nil, lookup_empty. split; [intros _; apply not_elem_of_nil|done].
    + rewrite byId_snoc, fmap_app, not_elem_of_app. simpl.
      rewrite lookup_insert_None, IH, list_elem_of_singleton.
      split; intros [H1 H2]; split; congruence.
  - induction records as [|q records IH] using rev_ind; intros p.
    + by rewrite byId_nil, lookup_empty.
    + rewrite byId_snoc, lookup_insert_Some.
      intros [[<- <-]|[Hne Hp]].
      * split; [|done]. apply elem_of_app. right. by left.
      * destruct (IH p Hp). split; [|done]. apply elem_of_app. by left.
  - intros p. rewrite byId_snoc. apply lookup_insert_eq.
Qed.

(** The calls of a pass that returns: the login, the bulk query, one
    Raintree fetch per mapping in the order of the mappings (processed or
    not), then update calls only, as many as there are results counted as
    synced or failed by the summary. *)
Theorem pass_call_trace (kind : RecordKind) (creds : SalesforceCredentials)
    (mappings : Mappings) (w : World env) results updated :
  outcome (syncPass env kind creds mappings w) = Returns (results, updated) →
  ∃ updates,
    calls (syncPass env kind creds mappings w)
    = ((CreateWithCredentials creds :: fetchAllCall kind
        :: (fetchCall kind <$> mappings)) ++ updates)%list
    ∧ Forall (λ c, isUpdate c = true) updates
    ∧ length updates
      = synced (summarize results) + failed (summarize results).
Proof.
  intros Hpass.
  destruct (syncPass_inv env kind creds mappings w results updated Hpass)
    as (svc & partnerMap & raintreeMap & Hlogin & Hfetch & Hloop).
  rewrite (syncPass_calls env kind creds mappings w svc partnerMap raintreeMap
             Hlogin Hfetch).
  destruct (processMappings_calls env kind _ _ svc mappings _ _ _ _ _ Hloop)
    as (new & Hnew & Hupd & Hlen).
  simpl in Hnew. subst new.
  eexists. split; [reflexivity|]. split; [exact Hupd|].
  rewrite Hlen. apply propagated_count.
  eapply Forall_impl;
    [exact (processMappings_wellformed env kind _ _ svc mappings _ _ _ _ _
              Hloop (Forall_nil_2 _))|].
  by intros res [_ H].
Qed.

(** When the Partner login throws, the login is the only call of the pass;
    when the bulk query throws, these two are: no Raintree record is fetched
    and nothing is updated. *)
Theorem partner_stage_failure_stops_pass (kind : RecordKind)
    (creds : SalesforceCredentials) (mappings : Mappings) (w : World env) :
  (∀ e w1,
     SalesforceService_createWithCredentials env creds w = (Throws e, w1) →
     calls (syncPass env kind creds mappings w) = [CreateWithCredentials creds]
     ∧ after (syncPass env kind creds mappings w) = w1)
  ∧ (∀ svc w1 e,
       SalesforceService_createWithCredentials env creds w = (Returns svc, w1) →
       outcome (fetchAll env kind svc w1) = Throws e →
       calls (syncPass env kind creds mappings w)
       = [CreateWithCredentials creds; fetchAllCall kind]
       ∧ after (syncPass env kind creds mappings w)
         = after (fetchAll env kind svc w1)).
Proof.
  rewrite syncPass_stages. unfold try_catch, bind, remote, throw.
  split.
  - intros e w1 ->. simpl. done.
  - intros svc w1 e -> Hall. simpl. rewrite Hall. simpl.
    rewrite app_nil_r.
    split; [|done]. f_equal.
    destruct kind; simpl; unfold remote;
      match goal with
      | |- context [let '(_, _) := ?x in _] => by destruct x
      end.
Qed.

Lemma processMappings_ordered (kind : RecordKind)
    (partnerMap raintreeMap : gmap string (recordOf kind))
    (svc : PartnerService env) (l : Mappings) :
  ∀ results updated w results' updated',
    outcome (processMappings env kind partnerMap raintreeMap svc l
               (results, updated) w) = Returns (results', updated') →
    ∃ new,
      results' = (results ++ new)%list
      ∧ Forall2 (λ res entry,
                   recordId res = partnerId entry.2
                   ∧ ∃ p, partnerMap !! entry.1 = Some p
                          ∧ recordName res = nameOf env kind p)
          new (List.filter (processed partnerMap raintreeMap) l).
Proof.
  induction l as [|[k m] l IH]; intros results updated w results' updated' Hrun.
  - simpl in Hrun. simplify_eq. exists []. rewrite app_nil_r.
    split; [done|constructor].
  - simpl. unfold processed at 1. simpl.
    destruct (partnerMap !! k) as [p|] eqn:Hp;
      [destruct (raintreeMap !! k) as [r|] eqn:Hr|]; simpl.
    + destruct (processMappings_cons_processed env kind _ _ svc k m l p r
                  results updated w Hp Hr) as (res & Hres & Heq).
      simpl in Heq. rewrite Heq in Hrun. simpl in Hrun.
      destruct (IH _ _ _ _ _ Hrun) as (new & -> & Hall).
      exists (res :: new). split; [by rewrite <- app_assoc|].
      constructor; [|done]. simpl.
      pose proof (syncRecord_run env kind p r m svc w) as Hsr.
      simpl in Hsr. rewrite Hsr in Hres.
      destruct (updateCall kind _ m p r); simpl in Hres;
        injection Hres as <-; simpl; eauto.
    + rewrite processMappings_cons_skipped in Hrun by auto.
      exact (IH _ _ _ _ _ Hrun).
    + rewrite processMappings_cons_skipped in Hrun by auto.
      exact (IH _ _ _ _ _ Hrun).
Qed.

(** The results of a pass follow the order of the mappings: one result per
    processed mapping, in the order of the input, each with the [partnerId]
    of its mapping and the name of the Partner record found under its key. *)
Theorem results_follow_mappings (kind : RecordKind)
    (creds : SalesforceCredentials) (mappings : Mappings) (w : World env)
    results updated :
  outcome (syncPass env kind creds mappings w) = Returns (results, updated) →
  ∃ svc partnerMap raintreeMap,
    outcome (loginAndFetch env kind creds w) = Returns (svc, partnerMap)
    ∧ outcome (fetchRaintreeRecords env kind mappings
                 (after (loginAndFetch env kind creds w))) = Returns raintreeMap
    ∧ Forall2 (λ res entry,
                 recordId res = partnerId entry.2
                 ∧ ∃ p, partnerMap !! entry.1 = Some p
                        ∧ recordName res = nameOf env kind p)
        results (List.filter (processed partnerMap raintreeMap) mappings).
Proof.
  intros Hpass.
  destruct (syncPass_inv env kind creds mappings w results updated Hpass)
    as (svc & partnerMap & raintreeMap & Hlogin & Hfetch & Hloop).
  exists svc, partnerMap, raintreeMap. split; [done|]. split; [done|].
  destruct (processMappings_ordered kind _ _ svc mappings _ _ _ _ _ Hloop)
    as (new & Hnew & Hall). simpl in Hnew. by subst.
Qed.

(** A pass neither adds nor removes a mapping, and never changes the two ids
    of a mapping: the returned object has exactly the keys of the input, and
    under each key a mapping with the [partnerId] and [raintreeId] of the
    input one. *)
Theorem pass_keeps_keys_and_ids (kind : RecordKind)
    (creds : SalesforceCredentials) (mappings : Mappings) (w : World env)
    results (updated : gmap string SyncMapping) :
  NoDup mappings.*1 →
  outcome (syncPass env kind creds mappings w) = Returns (results, updated) →
  (∀ key, is_Some (updated !! key) ↔ key ∈ mappings.*1)
  ∧ (∀ key mapping,
       (key, mapping) ∈ mappings →
       ∃ stored,
         updated !! key = Some stored
         ∧ partnerId stored = partnerId mapping
         ∧ raintreeId stored = raintreeId mapping).
Proof.
  intros Hnd Hpass.
  destruct (syncPass_inv env kind creds mappings w results updated Hpass)
    as (svc & partnerMap & raintreeMap & _ & _ & Hloop).
  unfold processMappings in Hloop.
  pose proof (forEach_invariant env
    (processMapping env kind partnerMap raintreeMap svc)
    (λ acc : list SyncResult * gmap string SyncMapping,
       (∀ key, is_Some (acc.2 !! key) ↔ key ∈ mappings.*1)
       ∧ (∀ key mapping, (key, mapping) ∈ mappings →
            ∃ stored, acc.2 !! key = Some stored
                      ∧ partnerId stored = partnerId mapping
                      ∧ raintreeId stored = raintreeId mapping))
    mappings) as Hinv.
  apply (Hinv) with (acc := ([], list_to_map mappings)) (w := 
    after (fetchRaintreeRecords env kind mappings
             (after (loginAndFetch env kind creds w))))
    (acc' := (results, updated)); [| |exact Hloop]; clear Hinv Hloop.
  - intros [rs up] [k m] w0 [rs' up'] Hin [Hkeys Hids] Hbody. simpl in *.
    destruct (partnerMap !! k) as [p|] eqn:Hp;
      [destruct (raintreeMap !! k) as [r|] eqn:Hr|].
    + destruct (processMapping_processed env kind _ _ svc k m p r
                  rs up w0 Hp Hr) as (res & Hres & Heq).
      rewrite Heq in Hbody. simpl in Hbody. simplify_eq. split.
      * intros key. rewrite lookup_insert_is_Some, Hkeys.
        split; [intros [<-|[_ H]]; [|done]|intros H].
        -- apply list_elem_of_fmap. by exists (k, m).
        -- destruct (decide_rel (=) k key); auto.
      * intros key mapping Hkm.
        destruct (decide_rel (=) k key) as [<-|Hne].
        -- rewrite lookup_insert_eq. eexists. split; [done|].
           assert (mapping = m) as ->; [|done].
           pose proof (elem_of_list_to_map_1 (M := gmap string) _ _ _ Hnd Hkm)
             as H1.
           pose proof (elem_of_list_to_map_1 (M := gmap string) _ _ _ Hnd Hin)
             as H2.
           congruence.
        -- rewrite lookup_insert_ne by done. by apply Hids.
    + rewrite processMapping_skipped in Hbody by auto. simpl in Hbody.
      by simplify_eq.
    + rewrite processMapping_skipped in Hbody by auto. simpl in Hbody.
      by simplify_eq.
  - simpl. split.
    + intros key. rewrite <- elem_of_dom, dom_list_to_map_L.
      by rewrite elem_of_list_to_set.
    + intros key mapping Hin. exists mapping.
      split; [by apply elem_of_list_to_map_1|done].
Qed.

End PassExtras.

(** ** The guard over successive passes *)

Section Guard.

Context (env : Env).

(** Once [lastSyncSource] names a side and the record of that side shows no
    new change, a change of the other record alone is never propagated: the
    record function makes no call and reports [none], the mapping stored
    afterwards absorbs the timestamp of the other side, and the guard holds
    again for the next pass, whatever that side does then. *)
Theorem guard_absorbs_other_side (kind : RecordKind) (mapping : SyncMapping)
    (partnerRecord raintreeRecord : recordOf kind)
    (partnerService : PartnerService env) (w : World env) :
  (lastSyncSource mapping = partner →
   partnerHasNewChanges env mapping (modifiedDate kind partnerRecord) = false →
   ∃ syncResult,
     outcome (syncRecord env kind partnerRecord raintreeRecord mapping
                partnerService w) = Returns syncResult
     ∧ calls (syncRecord env kind partnerRecord raintreeRecord mapping
                partnerService w) = []
     ∧ syncDirection syncResult = none
     ∧ success syncResult = true
     ∧ raintreeLastModified
         (updatedMapping mapping (modifiedDate kind partnerRecord)
            (modifiedDate kind raintreeRecord) syncResult)
       = modifiedDate kind raintreeRecord
     ∧ lastSyncSource
         (updatedMapping mapping (modifiedDate kind partnerRecord)
            (modifiedDate kind raintreeRecord) syncResult) = partner
     ∧ partnerHasNewChanges env
         (updatedMapping mapping (modifiedDate kind partnerRecord)
            (modifiedDate kind raintreeRecord) syncResult)
         (modifiedDate kind partnerRecord) = false)
  ∧ (lastSyncSource mapping = raintree →
     raintreeHasNewChanges env mapping (modifiedDate kind raintreeRecord)
     = false →
     ∃ syncResult,
       outcome (syncRecord env kind partnerRecord raintreeRecord mapping
                  partnerService w) = Returns syncResult
       ∧ calls (syncRecord env kind partnerRecord raintreeRecord mapping
                  partnerService w) = []
       ∧ syncDirection syncResult = none
       ∧ success syncResult = true
       ∧ partnerLastModified
           (updatedMapping mapping (modifiedDate kind partnerRecord)
              (modifiedDate kind raintreeRecord) syncResult)
         = modifiedDate kind partnerRecord
       ∧ lastSyncSource
           (updatedMapping mapping (modifiedDate kind partnerRecord)
              (modifiedDate kind raintreeRecord) syncResult) = raintree
       ∧ raintreeHasNewChanges env
           (updatedMapping mapping (modifiedDate kind partnerRecord)
              (modifiedDate kind raintreeRecord) syncResult)
           (modifiedDate kind raintreeRecord) = false).
Proof.
  pose proof (syncRecord_run env kind partnerRecord raintreeRecord mapping
                partnerService w) as Hrun. simpl in Hrun.
  assert (Hnone : updateCall kind NoOp mapping partnerRecord raintreeRecord
                  = None) by (by destruct kind).
  split; intros Hsrc Hsame.
  - assert (Hd : decide env kind mapping partnerRecord raintreeRecord = NoOp).
    { unfold decide, decideDirection. rewrite Hsame, Hsrc. simpl.
      by destruct (raintreeHasNewChanges _ _ _). }
    rewrite Hd, Hnone in Hrun. rewrite Hrun. eexists. split; [reflexivity|].
    simpl. rewrite Hsrc. repeat split.
    unfold partnerHasNewChanges. simpl. apply js_gt_irrefl.
  - assert (Hd : decide env kind mapping partnerRecord raintreeRecord = NoOp).
    { unfold decide, decideDirection. rewrite Hsame, Hsrc. simpl.
      by destruct (partnerHasNewChanges _ _ _). }
    rewrite Hd, Hnone in Hrun. rewrite Hrun. eexists. split; [reflexivity|].
    simpl. rewrite Hsrc. repeat split.
    unfold raintreeHasNewChanges. simpl. apply js_gt_irrefl.
Qed.

End Guard.

(** ** The summary of the route and the notifications of the dashboard *)

Lemma summarize_app (a b : list SyncResult) :
  total (summarize (a ++ b)) = total (summarize a) + total (summarize b)
  ∧ synced (summarize (a ++ b)) = synced (summarize a) + synced (summarize b)
  ∧ failed (summarize (a ++ b)) = failed (summarize a) + failed (summarize b)
  ∧ conflicts (summarize (a ++ b))
    = conflicts (summarize a) + conflicts (summarize b).
Proof.
  unfold summarize. simpl. rewrite !List.filter_app, !length_app. done.
Qed.

(** The counts of the summary: every result is counted once, as synced, as
    failed, or as a successful result with direction [none]; and the summary
    of the route, taken over the results of both kinds, is the sum of the
    summaries of each kind. *)
Theorem summary_counts (opportunityResults leadResults : list SyncResult) :
  total (summarize (opportunityResults ++ leadResults))
  = synced (summarize (opportunityResults ++ leadResults))
    + failed (summarize (opportunityResults ++ leadResults))
    + length (List.filter (λ r, success r && negb (propagated r))
                (opportunityResults ++ leadResults))
  ∧ total (summarize (opportunityResults ++ leadResults))
    = total (summarize opportunityResults) + total (summarize leadResults)
  ∧ synced (summarize (opportunityResults ++ leadResults))
    = synced (summarize opportunityResults) + synced (summarize leadResults)
  ∧ failed (summarize (opportunityResults ++ leadResults))
    = failed (summarize opportunityResults) + failed (summarize leadResults).
Proof.
  split; [|by destruct (summarize_app opportunityResults leadResults)
                 as (? & ? & ? & ?)].
  induction (opportunityResults ++ leadResults)%list as [|r l IH]; [done|].
  simpl in *. unfold propagated in *.
  destruct (success r), (bool_decide (syncDirection r ≠ none)); simpl; lia.
Qed.

(** One notification per result counted as synced or failed by the summary,
    none for the others; the data is loaded again exactly when the summary
    counts a synced result. *)
Theorem notifications_match_summary
    (opportunityResults leadResults : list SyncResult) :
  length (notifications opportunityResults leadResults)
  = synced (summarize (opportunityResults ++ leadResults))
    + failed (summarize (opportunityResults ++ leadResults))
  ∧ (hasChanges opportunityResults leadResults = true
     ↔ 0 < synced (summarize (opportunityResults ++ leadResults))).
Proof.
  assert (Hone : ∀ l,
    length (omap notificationOf l)
    = synced (summarize l) + failed (summarize l)
    ∧ (existsb (λ r, success r && propagated r) l = true
       ↔ 0 < synced (summarize l))).
  { induction l as [|r l [IH1 IH2]]; [split; [done|simpl; split; [done|lia]]|].
    change (omap notificationOf (r :: l))
      with (match notificationOf r with
            | Some n => n :: omap notificationOf l
            | None => omap notificationOf l
            end).
    change (synced (summarize (r :: l)))
      with (length (if success r && propagated r
                    then r :: List.filter (λ r, success r && propagated r) l
                    else List.filter (λ r, success r && propagated r) l)).
    change (failed (summarize (r :: l)))
      with (length (if negb (success r)
                    then r :: List.filter (λ r, negb (success r)) l
                    else List.filter (λ r, negb (success r)) l)).
    change (existsb (λ r, success r && propagated r) (r :: l))
      with (success r && propagated r
            || existsb (λ r, success r && propagated r) l).
    change (synced (summarize l))
      with (length (List.filter (λ r, success r && propagated r) l)) in *.
    change (failed (summarize l))
      with (length (List.filter (λ r, negb (success r)) l)) in *.
    unfold notificationOf at 1.
    destruct (success r), (propagated r); simpl; rewrite ?IH1, ?IH2;
      split; first [lia | split; [intros _; lia | done] | done]. }
  destruct (summarize_app opportunityResults leadResults) as (_ & Hs & Hf & _).
  rewrite Hs, Hf. unfold notifications, hasChanges.
  rewrite length_app, orb_true_iff.
  rewrite (proj1 (Hone opportunityResults)), (proj1 (Hone leadResults)).
  rewrite (proj2 (Hone opportunityResults)), (proj2 (Hone leadResults)).
  split; lia.
Qed.

Section Dashboard.

Context (env : Env).

Lemma syncRecord_direction (kind : RecordKind) (p r : recordOf kind)
    (mapping : SyncMapping) (svc : PartnerService env) (w : World env)
    (res : SyncResult) :
  outcome (syncRecord env kind p r mapping svc w) = Returns res →
  syncDirection res = directionOf (decide env kind mapping p r).
Proof.
  pose proof (syncRecord_run env kind p r mapping svc w) as Hrun.
  simpl in Hrun. rewrite Hrun.
  destruct (updateCall kind _ mapping p r); simpl; by intros [= <-].
Qed.

(** What the dashboard shows for the results of a pass: nothing for a
    mapping left as it is, the direction taken for a propagation that
    succeeded, and the error message of the update for one that failed; the
    label [Conflict resolved] and a message printed as [undefined] never
    occur. *)
Theorem pass_notifications (kind : RecordKind) (creds : SalesforceCredentials)
    (mappings : Mappings) (w : World env) results updated :
  outcome (syncPass env kind creds mappings w) = Returns (results, updated) →
  Forall (λ res,
      (success res = true ∧ syncDirection res = none
       ∧ notificationOf res = None)
      ∨ (success res = true ∧ syncDirection res = partner_to_raintree
         ∧ notificationOf res
           = Some (recordName res ++ " synced (Partner → Raintree)",
                   notify_success))
      ∨ (success res = true ∧ syncDirection res = raintree_to_partner
         ∧ notificationOf res
           = Some (recordName res ++ " synced (Raintree → Partner)",
                   notify_success))
      ∨ (∃ e, success res = false ∧ error res = Some e
              ∧ syncDirection res ≠ none
              ∧ notificationOf res
                = Some ("Failed to sync " ++ recordName res ++ ": " ++ e,
                        notify_error)))
    results.
Proof.
  intros Hpass.
  destruct (syncPass_inv env kind creds mappings w results updated Hpass)
    as (svc & partnerMap & raintreeMap & _ & _ & Hloop).
  eapply (processMappings_results env kind partnerMap raintreeMap svc mappings);
    [|constructor|exact Hloop].
  intros key mapping p r w' res _ _ _ Hres.
  pose proof (syncRecord_direction kind p r mapping svc w' res Hres) as Hdir.
  destruct (syncRecord_calls env kind p r mapping svc w' res Hres)
    as (_ & _ & Herr & Hfail).
  unfold notificationOf, propagated in *.
  destruct (success res) eqn:Hs.
  - destruct (decide env kind mapping p r); simpl in Hdir; rewrite Hdir;
      simpl;
      [left|right; left|right; right; left]; repeat split; reflexivity.
  - do 3 right. specialize (Hfail eq_refl).
    destruct (error res) as [e|] eqn:He.
    + exists e. simpl.
      split; [done|]. split; [done|].
      split; [by apply bool_decide_eq_true in Hfail|reflexivity].
    + discriminate (proj2 Herr eq_refl).
Qed.

Lemma normalizeMapping_run (entry : string * RequestMapping) (w : World env) :
  ∃ mapping,
    outcome (normalizeMapping env entry w) = Returns (entry.1, mapping)
    ∧ calls (normalizeMapping env entry w) = []
    ∧ match entry.2 with
      | Enhanced given =>
          mapping = given ∧ after (normalizeMapping env entry w) = w
      | Simple raintreeRecordId =>
          mapping
          = {| partnerId := entry.1;
               raintreeId := raintreeRecordId;
               partnerLastModified := Some (Date_now env w).1;
               raintreeLastModified :=
                 Some (Date_now env (Date_now env w).2).1;
               lastSyncSource := system;
               lastSyncTime :=
                 (Date_now env (Date_now env (Date_now env w).2).2).1 |}
      end.
Proof.
  destruct entry as [key [rid|given]]; unfold normalizeMapping; simpl.
  - unfold bind, now, ret. simpl.
    destruct (Date_now env w) as [t1 w1]. simpl.
    destruct (Date_now env w1) as [t2 w2]. simpl.
    destruct (Date_now env w2) as [t3 w3]. simpl. eauto.
  - eauto.
Qed.

(** The conversion of the mappings of a request: it calls no gateway and
    never throws; the converted object has the keys of the request in the
    same order, but for the key [__proto__], which is dropped; a mapping in
    enhanced format is passed on as it is, and one in simple format becomes a
    mapping from its key to the given Raintree id, with [lastSyncSource]
    [system] and the time of the conversion as its timestamps. *)
Theorem normalizeMappings_converts
    (requestMappings : list (string * RequestMapping)) (w : World env) :
  (∀ entry w0, ∃ mapping,
     outcome (normalizeMapping env entry w0) = Returns (entry.1, mapping)
     ∧ match entry.2 with
       | Enhanced given => mapping = given
       | Simple raintreeRecordId =>
           mapping
           = {| partnerId := entry.1;
                raintreeId := raintreeRecordId;
                partnerLastModified := Some (Date_now env w0).1;
                raintreeLastModified :=
                  Some (Date_now env (Date_now env w0).2).1;
                lastSyncSource := system;
                lastSyncTime :=
                  (Date_now env (Date_now env (Date_now env w0).2).2).1 |}
       end)
  ∧ ∃ converted,
      outcome (normalizeMappings env requestMappings w) = Returns converted
      ∧ calls (normalizeMappings env requestMappings w) = []
      ∧ converted.*1
        = (List.filter (λ entry, addsOwnKey entry.1) requestMappings).*1
      ∧ Forall2 (λ (entry : string * RequestMapping) (c : string * SyncMapping),
                   match entry.2 with
                   | Enhanced given => c.2 = given
                   | Simple raintreeRecordId =>
                       partnerId c.2 = entry.1
                       ∧ raintreeId c.2 = raintreeRecordId
                       ∧ lastSyncSource c.2 = system
                   end)
          (List.filter (λ entry, addsOwnKey entry.1) requestMappings)
          converted.
Proof.
  split.
  { intros entry w0.
    destruct (normalizeMapping_run entry w0) as (mapping & Hrun & _ & Hm).
    exists mapping. split; [done|]. destruct (entry.2); [done|]. by destruct Hm. }
  unfold normalizeMappings.
  set (body := λ (converted : Mappings) (entry : string * RequestMapping),
                 let* mapping := normalizeMapping env entry in
                 ret (if addsOwnKey entry.1
                      then (converted ++ [mapping])%list
                      else converted)).
  assert (Hbody : ∀ (acc : Mappings) entry w0, ∃ mapping,
    outcome (body acc entry w0)
    = Returns (if addsOwnKey entry.1
               then (acc ++ [(entry.1, mapping)])%list
               else acc)
    ∧ calls (body acc entry w0) = []
    ∧ match entry.2 with
      | Enhanced given => mapping = given
      | Simple raintreeRecordId =>
          partnerId mapping = entry.1
          ∧ raintreeId mapping = raintreeRecordId
          ∧ lastSyncSource mapping = system
      end).
  { intros acc entry w0.
    destruct (normalizeMapping_run entry w0) as (mapping & Hrun & Hcalls & Hm).
    exists mapping. unfold body.
    rewrite (bind_returns env _ _ _ _ Hrun). simpl. rewrite Hcalls.
    split; [done|]. split; [done|].
    destruct (entry.2); [by subst|by destruct Hm]. }
  assert (Hloop : ∀ l (acc : Mappings) w0, ∃ converted,
    outcome (forEach body l acc w0) = Returns (acc ++ converted)%list
    ∧ calls (forEach body l acc w0) = []
    ∧ converted.*1 = (List.filter (λ entry, addsOwnKey entry.1) l).*1
    ∧ Forall2 (λ (entry : string * RequestMapping) (c : string * SyncMapping),
                 match entry.2 with
                 | Enhanced given => c.2 = given
                 | Simple raintreeRecordId =>
                     partnerId c.2 = entry.1
                     ∧ raintreeId c.2 = raintreeRecordId
                     ∧ lastSyncSource c.2 = system
                 end)
        (List.filter (λ entry, addsOwnKey entry.1) l) converted).
  { induction l as [|entry l IH]; intros acc w0.
    - exists []. simpl. rewrite app_nil_r. repeat split; constructor.
    - destruct (Hbody acc entry w0) as (mapping & Hout1 & Hcalls1 & Hm).
      rewrite forEach_cons, (bind_returns env _ _ _ _ Hout1).
      cbn [outcome calls List.filter]. rewrite Hcalls1.
      destruct (addsOwnKey entry.1).
      + destruct (IH (acc ++ [(entry.1, mapping)])%list
                    (after (body acc entry w0)))
          as (converted & Hout & Hc & Hkeys & Hall).
        exists ((entry.1, mapping) :: converted).
        rewrite Hout, Hc, <- app_assoc.
        split; [done|]. split; [done|].
        split; [by rewrite !fmap_cons, Hkeys|].
        by constructor.
      + destruct (IH acc (after (body acc entry w0)))
          as (converted & Hout & Hc & Hkeys & Hall).
        exists converted. by rewrite Hout, Hc. }
  destruct (Hloop requestMappings [] w) as (converted & H). by exists converted.
Qed.

End Dashboard.

(** ** These theorems at work on the concrete environment *)

Lemma snapshot_lookup_witness :
  byId Opportunity
    [Scenario.partnerOpportunity Scenario.T0;
     Scenario.partnerOpportunity Scenario.T1] !! "006P"
  = Some (Scenario.partnerOpportunity Scenario.T1)
  ∧ Scenario.partnerOpportunity Scenario.T1
    ∈ [Scenario.partnerOpportunity Scenario.T0;
       Scenario.partnerOpportunity Scenario.T1]
  ∧ recordIdOf Opportunity (Scenario.partnerOpportunity Scenario.T1) = "006P".
Proof.
  split; [reflexivity|].
  apply (proj1 (proj2 (snapshot_lookup Opportunity
                         [Scenario.partnerOpportunity Scenario.T0;
                          Scenario.partnerOpportunity Scenario.T1] "006P"))).
  reflexivity.
Defined.

Lemma pass_call_trace_witness :
  outcome (syncPass
             (Scenario.env (Scenario.orgs Scenario.T1 Scenario.T0 (Returns ())))
             Opportunity Scenario.credentials
             [("006P", Scenario.opportunityMapping system)] 0%nat)
  = Returns
      ([{| recordId := "006P"; recordName := "Big deal";
           syncDirection := partner_to_raintree; success := true;
           error := None; timestamp := Scenario.T3 |}],
       {[ "006P" :=
            {| partnerId := "006P"; raintreeId := "006R";
               partnerLastModified := Some Scenario.T1;
               raintreeLastModified := Some Scenario.T0;
               lastSyncSource := partner;
               lastSyncTime := Scenario.T3 |} ]})
  ∧ ∃ updates,
      calls (syncPass
               (Scenario.env
                  (Scenario.orgs Scenario.T1 Scenario.T0 (Returns ())))
               Opportunity Scenario.credentials
               [("006P", Scenario.opportunityMapping system)] 0%nat)
      = ([CreateWithCredentials Scenario.credentials;
          PartnerGetOpportunities; RaintreeGetOpportunity "006R"]
         ++ updates)%list
      ∧ length updates = 1.
Proof.
  split; [vm_compute; reflexivity|].
  edestruct (pass_call_trace
               (Scenario.env (Scenario.orgs Scenario.T1 Scenario.T0 (Returns ())))
               Opportunity Scenario.credentials
               [("006P", Scenario.opportunityMapping system)] 0%nat)
    as (updates & Hcalls & _ & Hlen); [vm_compute; reflexivity|].
  exists updates. split; [exact Hcalls|exact Hlen].
Defined.

Lemma partner_stage_failure_stops_pass_witness :
  SalesforceService_createWithCredentials
    (Scenario.env Scenario.loginFails) Scenario.credentials 0%nat
  = (Throws "Salesforce authentication failed: Invalid username, password, or security token. Please verify your credentials.",
     1%nat)
  ∧ calls (syncPass (Scenario.env Scenario.loginFails) Lead
             Scenario.credentials
             [("00QP", Scenario.leadMapping system)] 0%nat)
    = [CreateWithCredentials Scenario.credentials].
Proof.
  split; [reflexivity|].
  exact (proj1 (proj1 (partner_stage_failure_stops_pass
                         (Scenario.env Scenario.loginFails) Lead
                         Scenario.credentials
                         [("00QP", Scenario.leadMapping system)] 0%nat)
                  _ _ eq_refl)).
Defined.

Lemma results_follow_mappings_witness :
  outcome (syncPass
             (Scenario.env (Scenario.orgs Scenario.T1 Scenario.T0 (Returns ())))
             Opportunity Scenario.credentials
             [("006X", Scenario.mapping "006X" "006R" Scenario.T0 Scenario.T0
                         system);
              ("006P", Scenario.opportunityMapping system)] 0%nat)
  = Returns
      ([{| recordId := "006P"; recordName := "Big deal";
           syncDirection := partner_to_raintree; success := true;
           error := None; timestamp := Scenario.T3 |}],
       {[ "006X" := Scenario.mapping "006X" "006R" Scenario.T0 Scenario.T0
                      system;
          "006P" :=
            {| partnerId := "006P"; raintreeId := "006R";
               partnerLastModified := Some Scenario.T1;
               raintreeLastModified := Some Scenario.T0;
               lastSyncSource := partner;
               lastSyncTime := Scenario.T3 |} ]})
  ∧ ∃ partnerMap raintreeMap : gmap string SalesforceOpportunity,
      Forall2 (λ res (entry : string * SyncMapping),
                 recordId res = partnerId entry.2
                 ∧ ∃ p : SalesforceOpportunity,
                     partnerMap !! entry.1 = Some p
                     ∧ recordName res = opportunityName p)
        [{| recordId := "006P"; recordName := "Big deal";
            syncDirection := partner_to_raintree; success := true;
            error := None; timestamp := Scenario.T3 |}]
        (List.filter (processed (kind := Opportunity) partnerMap raintreeMap)
           [("006X", Scenario.mapping "006X" "006R" Scenario.T0 Scenario.T0
                       system);
            ("006P", Scenario.opportunityMapping system)]).
Proof.
  split; [vm_compute; reflexivity|].
  edestruct (results_follow_mappings
               (Scenario.env (Scenario.orgs Scenario.T1 Scenario.T0 (Returns ())))
               Opportunity Scenario.credentials
               [("006X", Scenario.mapping "006X" "006R" Scenario.T0 Scenario.T0
                           system);
                ("006P", Scenario.opportunityMapping system)] 0%nat)
    as (svc & partnerMap & raintreeMap & _ & _ & Hall);
    [vm_compute; reflexivity|].
  exists partnerMap, raintreeMap. exact Hall.
Defined.

Lemma pass_keeps_keys_and_ids_witness :
  NoDup [("006P", Scenario.opportunityMapping system)].*1
  ∧ outcome (syncPass
               (Scenario.env
                  (Scenario.orgs Scenario.T1 Scenario.T0
                     (Throws Scenario.sessionExpired)))
               Opportunity Scenario.credentials
               [("006P", Scenario.opportunityMapping system)] 0%nat)
    = Returns
        ([{| recordId := "006P"; recordName := "Big deal";
             syncDirection := partner_to_raintree; success := false;
             error := Some Scenario.sessionExpired;
             timestamp := Scenario.T3 |}],
         {[ "006P" :=
              {| partnerId := "006P"; raintreeId := "006R";
                 partnerLastModified := Some Scenario.T1;
                 raintreeLastModified := Some Scenario.T0;
                 lastSyncSource := partner;
                 lastSyncTime := Scenario.T3 |} ]})
  ∧ ∃ stored,
      ({[ "006P" :=
            {| partnerId := "006P"; raintreeId := "006R";
               partnerLastModified := Some Scenario.T1;
               raintreeLastModified := Some Scenario.T0;
               lastSyncSource := partner;
               lastSyncTime := Scenario.T3 |} ]}
         : gmap string SyncMapping) !! "006P" = Some stored
      ∧ partnerId stored = "006P"
      ∧ raintreeId stored = "006R".
Proof.
  assert (Hnd : NoDup [("006P", Scenario.opportunityMapping system)].*1)
    by apply NoDup_singleton.
  assert (Hpass :
    outcome (syncPass
               (Scenario.env
                  (Scenario.orgs Scenario.T1 Scenario.T0
                     (Throws Scenario.sessionExpired)))
               Opportunity Scenario.credentials
               [("006P", Scenario.opportunityMapping system)] 0%nat)
    = Returns
        ([{| recordId := "006P"; recordName := "Big deal";
             syncDirection := partner_to_raintree; success := false;
             error := Some Scenario.sessionExpired;
             timestamp := Scenario.T3 |}],
         {[ "006P" :=
              {| partnerId := "006P"; raintreeId := "006R";
                 partnerLastModified := Some Scenario.T1;
                 raintreeLastModified := Some Scenario.T0;
                 lastSyncSource := partner;
                 lastSyncTime := Scenario.T3 |} ]}))
    by (vm_compute; reflexivity).
  split; [exact Hnd|]. split; [exact Hpass|].
  apply (proj2 (pass_keeps_keys_and_ids _ _ _ _ _ _ _ Hnd Hpass)
           "006P" (Scenario.opportunityMapping system)).
  apply list_elem_of_singleton. reflexivity.
Defined.

Lemma guard_absorbs_other_side_witness :
  lastSyncSource (Scenario.opportunityMapping partner) = partner
  ∧ partnerHasNewChanges
      (Scenario.env (Scenario.orgs Scenario.T0 Scenario.T2 (Returns ())))
      (Scenario.opportunityMapping partner)
      (modifiedDate Opportunity (Scenario.partnerOpportunity Scenario.T0))
    = false
  ∧ raintreeHasNewChanges
      (Scenario.env (Scenario.orgs Scenario.T0 Scenario.T2 (Returns ())))
      (Scenario.opportunityMapping partner)
      (modifiedDate Opportunity (Scenario.raintreeOpportunity Scenario.T2))
    = true
  ∧ ∃ syncResult,
      outcome (syncRecord
                 (Scenario.env
                    (Scenario.orgs Scenario.T0 Scenario.T2 (Returns ())))
                 Opportunity (Scenario.partnerOpportunity Scenario.T0)
                 (Scenario.raintreeOpportunity Scenario.T2)
                 (Scenario.opportunityMapping partner) () 0%nat)
      = Returns syncResult
      ∧ syncDirection syncResult = none
      ∧ calls (syncRecord
                 (Scenario.env
                    (Scenario.orgs Scenario.T0 Scenario.T2 (Returns ())))
                 Opportunity (Scenario.partnerOpportunity Scenario.T0)
                 (Scenario.raintreeOpportunity Scenario.T2)
                 (Scenario.opportunityMapping partner) () 0%nat) = [].
Proof.
  split; [reflexivity|]. split; [reflexivity|]. split; [reflexivity|].
  destruct (proj1 (guard_absorbs_other_side
                     (Scenario.env
                        (Scenario.orgs Scenario.T0 Scenario.T2 (Returns ())))
                     Opportunity (Scenario.opportunityMapping partner)
                     (Scenario.partnerOpportunity Scenario.T0)
                     (Scenario.raintreeOpportunity Scenario.T2) () 0%nat)
              eq_refl eq_refl)
    as (res & Hout & Hcalls & Hdir & _).
  exists res. split; [exact Hout|]. split; [exact Hdir|exact Hcalls].
Defined.

Lemma pass_notifications_witness :
  outcome (syncPass
             (Scenario.env
                (Scenario.orgs Scenario.T1 Scenario.T0
                   (Throws Scenario.sessionExpired)))
             Opportunity Scenario.credentials
             [("006P", Scenario.opportunityMapping system)] 0%nat)
  = Returns
      ([{| recordId := "006P"; recordName := "Big deal";
           syncDirection := partner_to_raintree; success := false;
           error := Some Scenario.sessionExpired;
           timestamp := Scenario.T3 |}],
       {[ "006P" :=
            {| partnerId := "006P"; raintreeId := "006R";
               partnerLastModified := Some Scenario.T1;
               raintreeLastModified := Some Scenario.T0;
               lastSyncSource := partner;
               lastSyncTime := Scenario.T3 |} ]})
  ∧ ∃ e,
      error {| recordId := "006P"; recordName := "Big deal";
               syncDirection := partner_to_raintree; success := false;
               error := Some Scenario.sessionExpired;
               timestamp := Scenario.T3 |} = Some e
      ∧ notificationOf
          {| recordId := "006P"; recordName := "Big deal";
             syncDirection := partner_to_raintree; success := false;
             error := Some Scenario.sessionExpired;
             timestamp := Scenario.T3 |}
        = Some ("Failed to sync " ++ "Big deal" ++ ": " ++ e, notify_error).
Proof.
  assert (Hpass :
    outcome (syncPass
               (Scenario.env
                  (Scenario.orgs Scenario.T1 Scenario.T0
                     (Throws Scenario.sessionExpired)))
               Opportunity Scenario.credentials
               [("006P", Scenario.opportunityMapping system)] 0%nat)
    = Returns
        ([{| recordId := "006P"; recordName := "Big deal";
             syncDirection := partner_to_raintree; success := false;
             error := Some Scenario.sessionExpired;
             timestamp := Scenario.T3 |}],
         {[ "006P" :=
              {| partnerId := "006P"; raintreeId := "006R";
                 partnerLastModified := Some Scenario.T1;
                 raintreeLastModified := Some Scenario.T0;
                 lastSyncSource := partner;
                 lastSyncTime := Scenario.T3 |} ]}))
    by (vm_compute; reflexivity).
  split; [exact Hpass|].
  pose proof (pass_notifications _ _ _ _ _ _ _ Hpass) as Hall.
  apply Forall_cons in Hall as [[(Hs & _)|[(Hs & _)|[(Hs & _)|(e & _ & He & _ & Hn)]]] _];
    try discriminate Hs.
  exists e. split; [exact He|exact Hn].
Defined.

Example normalizeMappings_drops_proto :
  outcome (normalizeMappings
             (Scenario.env (Scenario.orgs Scenario.T0 Scenario.T0 (Returns ())))
             [("__proto__", Simple "006X"); ("006P", Simple "006R")] 0%nat)
  = Returns
      [("006P",
        {| partnerId := "006P"; raintreeId := "006R";
           partnerLastModified := Some Scenario.T3;
           raintreeLastModified := Some Scenario.T3;
           lastSyncSource := system; lastSyncTime := Scenario.T3 |})].
Proof. vm_compute. reflexivity. Qed.
